(** * Token selection modal of the Arbitrum token bridge UI

    A shallow embedding of
    [packages/arb-token-bridge-ui/src/components/TokenModal/TokenModal.tsx]:
    the list of tokens shown by [TokensPanel] ([getBalance], [tokensToShow],
    the row renderer), the add-token form ([addNewToken]) and the selection
    dispatcher [selectToken] of [TokenModal].

    Conventions of the embedding.
    - A JavaScript string is a [string]; a character stands for one code unit
      below 256 (Latin-1), which covers token names, symbols and hexadecimal
      addresses.  [toLowerCase] and [trim] are the ECMAScript functions
      restricted to that range.
    - An ethers [BigNumber] is a [Z]; an absent balance ([undefined] or
      [null], both falsy) is [None].
    - The objects returned by [useTokensFromUser] and [useTokensFromLists]
      are association lists in property order, because [Object.keys]
      enumerates them in that order; [balances.erc20] and [bridgeTokens] are
      only read by key and are finite maps.
    - A thrown value or rejection reason is [undefined]/[null] or some other
      value, of which only the property [name] is read.
    - [bridgeTokens] is a plain object: a read by key finds its own entries
      and the properties inherited from [Object.prototype]. *)

From Stdlib Require Import ZArith Ascii Sorted.
From stdpp Require Import base option list strings gmap.

Local Open Scope Z_scope.

(** ** Strings *)

Module Js.

(** [String.prototype.toLowerCase] on one Latin-1 code unit: [A-Z] and the
  accented capitals U+00C0..U+00DE (without the sign U+00D7) move up by 32. *)
Definition lowerChar (c : ascii) : ascii :=
let n := N_of_ascii c in
if ((65 <=? n) && (n <=? 90))%N then ascii_of_N (n + 32)
else if ((192 <=? n) && (n <=? 222) && negb (n =? 215))%N
     then ascii_of_N (n + 32)
else c.

Fixpoint toLowerCase (s : string) : string :=
match s with
| EmptyString => EmptyString
| String c r => String (lowerChar c) (toLowerCase r)
end.

(** White space and line terminators below 256: TAB, LF, VT, FF, CR, SP and
  NBSP. *)
Definition isWhiteSpace (c : ascii) : bool :=
let n := N_of_ascii c in
((9 <=? n) && (n <=? 13) || (n =? 32) || (n =? 160))%N.

Fixpoint trimStart (s : string) : string :=
match s with
| EmptyString => EmptyString
| String c r => if isWhiteSpace c then trimStart r else s
end.

Fixpoint trimEnd (s : string) : string :=
match s with
| EmptyString => EmptyString
| String c r =>
    match trimEnd r with
    | EmptyString => if isWhiteSpace c then EmptyString else String c EmptyString
    | r' => String c r'
    end
end.

(** [String.prototype.trim] *)
Definition trim (s : string) : string := trimEnd (trimStart s).

(** [String.prototype.startsWith] *)
Fixpoint startsWith (s q : string) {struct q} : bool :=
match q, s with
| EmptyString, _ => true
| String _ _, EmptyString => false
| String b q', String a s' => if Ascii.eqb a b then startsWith s' q' else false
end.

(** [String.prototype.includes]: [q] occurs in [s] at some position. *)
Fixpoint includes (s q : string) : bool :=
startsWith s q ||
match s with
| EmptyString => false
| String _ s' => includes s' q
end.

(** A string is truthy unless it is empty. *)
Definition truthy (s : string) : bool :=
match s with EmptyString => false | String _ _ => true end.

(** [o || ''] for an optional string [o]. *)
Definition orEmpty (o : option string) : string :=
match o with
| Some s => s
| None => EmptyString
end.

End Js.

(** The relation that [includes] decides: [q] is a contiguous part of [s]. *)
Definition substring_of (q s : string) : Prop :=
  ∃ pre post : string, s = pre +:+ q +:+ post.


(** ** Data model *)

(** [SearchableToken] (declared in [TokenModalUtils]); the fields are the ones
    the modal reads. *)
Record SearchableToken := {
  name : string;
  symbol : string;
  address : string;
  l2Address : option string;
  decimals : Z;
  logoURI : option string;
  tokenLists : list Z
}.

(** One entry of the balance map: the L1 balance and the L2 balance. *)
Record BridgeBalance := {
  balance : option Z;
  arbChainBalance : option Z
}.

Record BridgeBalances := {
  eth : BridgeBalance;
  erc20 : gmap string BridgeBalance
}.

(** A plain object with token values, in property order. *)
Definition TokenObject : Type := list (string * SearchableToken).

(** [Object.keys(o)] *)
Definition keys (o : TokenObject) : list string := o.*1.

(** [o[k]]: the own property [k] of [o], [undefined] when there is none. *)
Fixpoint prop (o : TokenObject) (k : string) : option SearchableToken :=
  match o with
  | [] => None
  | (k', v) :: r => if String.eqb k' k then Some v else prop r k
  end.

(** [a || b] on values that are an object or [undefined]. *)
Definition orElse {A} (a b : option A) : option A :=
  match a with
  | Some x => Some x
  | None => b
  end.

(** [[...new Set(l)]]: each value once, at the place of its first
    occurrence; [seen] holds the values already in the set. *)
Fixpoint setFrom (seen l : list string) : list string :=
  match l with
  | [] => []
  | x :: r =>
      if existsb (String.eqb x) seen then setFrom seen r
      else x :: setFrom (x :: seen) r
  end.

(** [Array.prototype.filter] with a callback that may throw ([None]). *)
Fixpoint filterArr (f : string → option bool) (l : list string)
  : option (list string) :=
  match l with
  | [] => Some []
  | x :: r =>
      b ← f x;
      r' ← filterArr f r;
      Some (if b : bool then x :: r' else r')
  end.

(** [Array.prototype.sort(cmp)] as the insertion sort engines run on short
    arrays: the elements are taken from left to right, and each one is moved
    to the left past the elements [z] with [cmp x z < 0].  [insertBy] puts
    [x] in front of [y] exactly when [x] has passed [y] and everything
    behind it.  The sort is stable, and elements the comparator does not
    order strictly keep the order of the array. *)
Fixpoint insertBy (cmp : string → string → Z) (x : string) (l : list string)
  : list string :=
  match l with
  | [] => [x]
  | y :: r =>
      if forallb (λ z, cmp x z <? 0) (y :: r) then x :: y :: r
      else y :: insertBy cmp x r
  end.

Definition sortBy (cmp : string → string → Z) (l : list string) : list string :=
  fold_left (λ sorted x, insertBy cmp x sorted) l [].

(** ** TokensPanel *)

Definition ETH_IDENTIFIER : string := "eth.address".

Section TokensPanel.

(** The state and hooks [TokensPanel] reads. *)
Variable balances : option BridgeBalances.
Variable isDepositMode : bool.
Variable tokensFromUser : TokenObject.
Variable tokensFromLists : TokenObject.

Definition getBalance (address : string) : option Z :=
  if String.eqb address ETH_IDENTIFIER then
    if isDepositMode
    then b ← balances; balance (eth b)
    else b ← balances; arbChainBalance (eth b)
  else
    if isDepositMode
    then b ← balances; e ← erc20 b !! address; balance e
    else b ← balances; e ← erc20 b !! address; arbChainBalance e.

(** The array the filter runs over: ETH, then the keys of both objects
    without repetition. *)
Definition candidates : list string :=
  ETH_IDENTIFIER :: setFrom [] (keys tokensFromUser ++ keys tokensFromLists).

(** [balance && balance.gt(0)], read as a condition. *)
Definition hasPositiveBalance (address : string) : bool :=
  match getBalance address with
  | Some b => 0 <? b
  | None => false
  end.

(** The text a token is searched in. *)
Definition searchText (token : SearchableToken) : string :=
  Js.toLowerCase
    (name token +:+ symbol token +:+ address token
       +:+ Js.orEmpty (l2Address token)).

(** The callback of [.filter]; [None] is the [TypeError] of reading a
    property of [undefined]. *)
Definition filterFn (tokenSearch address : string) : option bool :=
  if negb (Js.truthy tokenSearch) then
    if String.eqb address ETH_IDENTIFIER then Some true
    else Some (hasPositiveBalance address)
  else if String.eqb address ETH_IDENTIFIER then
    Some (Js.includes "ethereumeth" tokenSearch)
  else
    token ← orElse (prop tokensFromUser address) (prop tokensFromLists address);
    Some (Js.includes (searchText token) tokenSearch).

(** The callback of [.sort]. *)
Definition compareFn (address1 address2 : string) : Z :=
  if String.eqb address1 ETH_IDENTIFIER then -1
  else if String.eqb address2 ETH_IDENTIFIER then 1
  else
    match getBalance address1, getBalance address2 with
    | None, None => 0
    | None, Some _ => 1
    | Some _, None => -1
    | Some bal1, Some bal2 => if bal2 <? bal1 then -1 else 1
    end.

Definition tokenSearchOf (newToken : string) : string :=
  Js.toLowerCase (Js.trim newToken).

Definition tokensToShow (newToken : string) : option (list string) :=
  let tokenSearch := tokenSearchOf newToken in
  shown ← filterArr (filterFn tokenSearch) candidates;
  Some (sortBy compareFn shown).

(** What [rowRenderer] hands to [TokenRow] and to [onTokenSelected] for the
    row at [index]: [null] (here [Some None]) for ETH, else the record.
    The outer [None] is a row outside the list. *)
Definition rowToken (shown : list string) (index : nat)
  : option (option SearchableToken) :=
  address ← shown !! index;
  if String.eqb address ETH_IDENTIFIER then Some None
  else Some (orElse (prop tokensFromLists address) (prop tokensFromUser address)).

End TokensPanel.

(** ** Effects

    Calls to the collaborators (callbacks, app actions, the bridge SDK, the
    console) are recorded in order.  A computation either completes or
    throws; for an [async] function that is the promise it returns being
    fulfilled or rejected. *)

(** A thrown value other than [undefined] and [null]; [err_name] is what
    reading its property [name] gives. *)
Record JsError := { err_name : string }.

Definition TypeError : JsError := {| err_name := "TypeError" |}.

(** What is thrown, or what a promise is rejected with: any value, of which
    [None] stands for [undefined] and [null].  Reading a property of those
    throws a [TypeError]. *)
Definition Thrown : Type := option JsError.

(** A settled promise. *)
Inductive Settled (A : Type) :=
| Fulfilled (value : A)
| Rejected (reason : Thrown).
Arguments Fulfilled {A} value.
Arguments Rejected {A} reason.

(** [ERC20BridgeToken] of the bridge SDK. *)
Record ERC20BridgeToken := {
  bt_name : string;
  bt_symbol : string;
  bt_address : string;
  bt_l2Address : option string;
  bt_decimals : Z;
  bt_listID : option Z
}.

(** [{ ...t, l2Address: a }] *)
Definition withL2Address (t : ERC20BridgeToken) (a : option string)
  : ERC20BridgeToken :=
  {| bt_name := bt_name t; bt_symbol := bt_symbol t; bt_address := bt_address t;
     bt_l2Address := a; bt_decimals := bt_decimals t; bt_listID := bt_listID t |}.

(** The names that every plain object inherits from [Object.prototype]. *)
Definition objectPrototype : list string :=
  ["constructor"; "hasOwnProperty"; "isPrototypeOf"; "propertyIsEnumerable";
   "toLocaleString"; "toString"; "valueOf"; "__defineGetter__";
   "__defineSetter__"; "__lookupGetter__"; "__lookupSetter__"; "__proto__"].

(** [typeof bridgeTokens[k] !== 'undefined']: the read finds an own entry
    or, failing that, a property inherited from [Object.prototype]. *)
Definition hasProperty (bridgeTokens : gmap string ERC20BridgeToken)
    (k : string) : bool :=
  bool_decide (is_Some (bridgeTokens !! k))
  || existsb (String.eqb k) objectPrototype.

Inductive Event :=
| Close
| SetSelectedToken (t : option ERC20BridgeToken)
| ImportToken (address : string)
| GetL1TokenData (address : string)
| UpdateTokenData (address : string)
| TokenAdd (address : string)
| ConsoleWarn (e : Thrown)
| ConsoleLog
| Alert (message : string).

Inductive Completion (A : Type) :=
| Normal (a : A)
| Throw (e : Thrown).
Arguments Normal {A} a.
Arguments Throw {A} e.

Module Eff.

Definition M (A : Type) : Type := list Event → Completion A * list Event.

Definition ret {A} (a : A) : M A := λ tr, (Normal a, tr).

Definition bind {A B} (m : M A) (k : A → M B) : M B :=
  λ tr, match m tr with
        | (Normal a, tr') => k a tr'
        | (Throw e, tr') => (Throw e, tr')
        end.

Definition emit (ev : Event) : M unit := λ tr, (Normal tt, tr ++ [ev]).

Definition throw {A} (e : Thrown) : M A := λ tr, (Throw e, tr).

(** [try { body } catch (error) { handler error }] *)
Definition tryCatch {A} (body : M A) (handler : Thrown → M A) : M A :=
  λ tr, match body tr with
        | (Normal a, tr') => (Normal a, tr')
        | (Throw e, tr') => handler e tr'
        end.

(** Run from an empty record of calls. *)
Definition run {A} (m : M A) : Completion A * list Event := m [].

End Eff.

Notation "x ←' m ; k" := (Eff.bind m (λ x, k))
  (at level 20, m at level 100, k at level 200, only parsing).
Notation "m ;;' k" := (Eff.bind m (λ _, k))
  (at level 100, k at level 200, right associativity, only parsing).

(** Modelled from the spec: the [setSelectedToken] action of the app state
    (not part of this component) makes its argument the active selection.
    [selectionAfter current tr] is the selection after the calls [tr]. *)
Fixpoint selectionAfter (current : option ERC20BridgeToken) (tr : list Event)
  : option ERC20BridgeToken :=
  match tr with
  | [] => current
  | SetSelectedToken t :: r => selectionAfter t r
  | _ :: r => selectionAfter current r
  end.

Definition disabledNotice : string := "This token is currently paused in the bridge".

(** ** TokenModal *)

Section TokenModal.

(** The metadata returned by the SDK and its conversion (declared in
    [TokenModalUtils]). *)
Variable L1TokenData : Type.
Variable toERC20BridgeToken : L1TokenData → ERC20BridgeToken.

(** [arbTokenBridge.bridgeTokens], a plain object, by its own entries;
    [None] is [undefined], which happens while networks are switched. *)
Variable bridgeTokens : option (gmap string ERC20BridgeToken).

(** [arbTokenBridge.token]; when present, the promise of [getL1TokenData]
    is fulfilled with the metadata (or with nothing) or rejected. *)
Variable token : option (string → Settled (option L1TokenData)).

(** [await token?.getL1TokenData(address)] *)
Definition awaitL1TokenData (address : string) : Eff.M (option L1TokenData) :=
  match token with
  | None => Eff.ret None
  | Some getL1TokenData =>
      Eff.emit (GetL1TokenData address) ;;'
      match getL1TokenData address with
      | Rejected error => Eff.throw error
      | Fulfilled data => Eff.ret data
      end
  end.

Definition selectToken (_token : option SearchableToken) : Eff.M unit :=
  Eff.emit Close ;;'
  match _token with
  | None => Eff.emit (SetSelectedToken None)
  | Some t =>
      if negb (Js.truthy (address t)) then Eff.ret tt
      else
        Eff.tryCatch
          (known ←' match bridgeTokens with
                    | None => Eff.throw (Some TypeError)
                    | Some bt => Eff.ret (hasProperty bt (address t))
                    end;
           if negb known then Eff.emit (ImportToken (address t))
           else
             data ←' awaitL1TokenData (address t);
             match data with
             | Some d =>
                 Eff.emit (UpdateTokenData (address t)) ;;'
                 Eff.emit (SetSelectedToken
                   (Some (withL2Address (toERC20BridgeToken d) (l2Address t))))
             | None => Eff.ret tt
             end)
          (λ error,
             Eff.emit (ConsoleWarn error) ;;'
             match error with
             | None => Eff.throw (Some TypeError)
             | Some e =>
                 if String.eqb (err_name e) "TokenDisabledError"
                 then Eff.emit (Alert disabledNotice)
                 else Eff.ret tt
             end)
  end.

End TokenModal.

(** ** The add-token form of TokensPanel

    [addNewToken] is an [async] handler: it runs up to
    [await storeNewToken()] when the form is submitted and resumes when the
    [token.add] request settles.  The form is therefore a transition system
    over the component state; React commits the state set by a handler
    before the next event is handled, so a handler reads the current
    [isAddingToken].  The state lives in [TokensPanel], which [TokenModal]
    unmounts when it shows the token lists and mounts anew afterwards: the
    new mount starts from the initial state, while the requests of earlier
    mounts go on, and what those set on settling no longer reaches the
    mounted panel.  The token interface of the SDK is taken to be defined,
    as [storeNewToken] reads it without a guard.  The confirmation dialog,
    the other user of [storeNewToken], is never opened by this component. *)

Record Form := {
  (** the number of the mount of the panel *)
  mount : nat;
  newToken : string;
  isAddingToken : bool;
  (** the [token.add] requests that have not settled yet, each with the
      mount that started it *)
  inFlight : list (nat * string);
  calls : list Event
}.

Inductive Input :=
| Change (value : string)             (* onChange of the input field *)
| Submit                              (* onSubmit of the form *)
| Settle (i : nat) (r : Settled unit) (* the request at place i settles *)
| Remount.                            (* to the token lists and back *)

Definition initialForm : Form :=
  {| mount := 0; newToken := ""; isAddingToken := false; inFlight := [];
     calls := [] |}.

(** The requests in flight that the mounted panel started. *)
Definition ownRequests (s : Form) : list (nat * string) :=
  List.filter (λ p, Nat.eqb p.1 (mount s)) (inFlight s).

Section AddToken.

(** [isAddress] of ethers. *)
Variable isAddress : string → bool.

(** What a settled [token.add] makes [storeNewToken] and the [catch] of
    [addNewToken] do.  The [.catch] callback logs and reads [ex.name]; for
    a rejection with [undefined] that read throws, and [addNewToken] logs
    the [TypeError]. *)
Definition storeNewToken_settled (r : Settled unit) : list Event :=
  match r with
  | Fulfilled _ => []
  | Rejected (Some ex) =>
      ConsoleLog ::
      (if String.eqb (err_name ex) "TokenDisabledError"
       then [Alert disabledNotice] else [])
  | Rejected None => [ConsoleLog; ConsoleLog]
  end.

(** [addNewToken] up to its [await]. *)
Definition addNewToken (s : Form) : Form :=
  if negb (isAddress (newToken s)) || isAddingToken s then s
  else
    {| mount := mount s;
       newToken := newToken s;
       isAddingToken := true;
       inFlight := inFlight s ++ [(mount s, newToken s)];
       calls := calls s ++ [TokenAdd (newToken s)] |}.

(** [addNewToken] from its [await] on, for the request at place [i] that
    mount [m] started: [finally] clears the flag of that mount. *)
Definition addNewToken_resume (i m : nat) (r : Settled unit) (s : Form) : Form :=
  {| mount := mount s;
     newToken := newToken s;
     isAddingToken := if Nat.eqb m (mount s) then false else isAddingToken s;
     inFlight := delete i (inFlight s);
     calls := calls s ++ storeNewToken_settled r |}.

(** One event of the form; [None] when the event cannot occur (there is no
    request at place [i]). *)
Definition step (s : Form) (i : Input) : option Form :=
  match i with
  | Change value =>
      Some {| mount := mount s; newToken := value;
              isAddingToken := isAddingToken s;
              inFlight := inFlight s; calls := calls s |}
  | Submit => Some (addNewToken s)
  | Settle i r =>
      match inFlight s !! i with
      | None => None
      | Some (m, _) => Some (addNewToken_resume i m r s)
      end
  | Remount =>
      Some {| mount := S (mount s); newToken := ""; isAddingToken := false;
              inFlight := inFlight s; calls := calls s |}
  end.

Fixpoint steps (s : Form) (inputs : list Input) : option Form :=
  match inputs with
  | [] => Some s
  | i :: r => s' ← step s i; steps s' r
  end.

End AddToken.

(** The flag is set exactly while one request of the mounted panel is in
    flight, and no request is of a later mount. *)
Definition flagTracksRequest (s : Form) : Prop :=
  ((isAddingToken s = true ∧ length (ownRequests s) = 1%nat)
   ∨ (isAddingToken s = false ∧ ownRequests s = []))
  ∧ Forall (λ p, (p.1 ≤ mount s)%nat) (inFlight s).

(** ** Address labels *)

Fixpoint takeS (n : nat) (s : string) : string :=
  match n, s with
  | S n', String c r => String c (takeS n' r)
  | _, _ => EmptyString
  end.

Fixpoint dropS (n : nat) (s : string) : string :=
  match n, s with
  | S n', String _ r => dropS n' r
  | _, _ => s
  end.

(** [String.prototype.substring(start, end)]: both indices are clamped to
    the string, and swapped when [start] is the larger one. *)
Definition jsSubstring (s : string) (start end_ : Z) : string :=
  let len := Z.of_nat (String.length s) in
  let a := Z.max 0 (Z.min start len) in
  let b := Z.max 0 (Z.min end_ len) in
  takeS (Z.to_nat (Z.max a b - Z.min a b)) (dropS (Z.to_nat (Z.min a b)) s).

Definition shortenAddress (address : string) : string :=
  let len := Z.of_nat (String.length address) in
  jsSubstring address 0 5 +:+ "..." +:+ jsSubstring address (len - 4) len.

(** ** TokenRow *)

(** What a row shows on its right-hand side. *)
Inductive RowStatus :=
| StatusBalance (amount : Z) (decimals : Z)   (* formatUnits(amount, decimals) *)
| StatusLoading                               (* the spinner *)
| StatusImport                                (* the label "Import" *)
| StatusNone.

Section TokenRow.

Variable bridgeTokens : option (gmap string ERC20BridgeToken).
Variable balances : option BridgeBalances.
Variable isDepositMode : bool.

(** The row of [token]; [None] is the ETH row. *)
Variable token : option SearchableToken.

Definition tokenName : string :=
  match token with Some t => name t | None => "Ether" end.

Definition tokenSymbol : string :=
  match token with Some t => symbol t | None => "ETH" end.

Definition tokenBalance : option Z :=
  match token with
  | None =>
      if isDepositMode
      then b ← balances; balance (eth b)
      else b ← balances; arbChainBalance (eth b)
  | Some t =>
      if isDepositMode
      then b ← balances; e ← erc20 b !! address t; balance e
      else b ← balances; e ← erc20 b !! address t; arbChainBalance e
  end.

Definition tokenIsAddedToTheBridge : bool :=
  match bridgeTokens with
  | None => true
  | Some bt =>
      match token with
      | None => true
      | Some t => hasProperty bt (address t)
      end
  end.

Definition tokenHasL2Address : bool :=
  match token with
  | None => true
  | Some t => bool_decide (is_Some (l2Address t))
  end.

Definition tokenIsBridgeable : bool :=
  if isDepositMode then true else tokenHasL2Address.

(** The [disabled] attribute of the row button. *)
Definition rowDisabled : bool := negb tokenIsBridgeable.

Definition rowStatus : RowStatus :=
  if tokenIsBridgeable then
    if tokenIsAddedToTheBridge then
      match tokenBalance with
      | Some amount =>
          StatusBalance amount (match token with Some t => decimals t | None => 18 end)
      | None => StatusLoading
      end
    else StatusImport
  else StatusNone.

(** The address under the symbol, absent on the ETH row; [None] in the
    inner position is the text "This token hasn't been bridged to L2". *)
Definition rowAddressText : option (option string) :=
  match token with
  | None => None
  | Some t =>
      Some (if isDepositMode then Some (Js.toLowerCase (shortenAddress (address t)))
            else match l2Address t with
                 | None => None
                 | Some l2 =>
                     Some (if Js.truthy l2 then Js.toLowerCase (shortenAddress l2)
                           else "")
                 end)
  end.

End TokenRow.

(** A click on the row at [index] of the list [shown]: a disabled button
    does not fire, any other row calls [onTokenSelected], which is
    [selectToken].  [None] is a click outside the list. *)
Definition clickRow (L1TokenData : Type)
    (toERC20BridgeToken : L1TokenData → ERC20BridgeToken)
    (bridgeTokens : option (gmap string ERC20BridgeToken))
    (token : option (string → Settled (option L1TokenData)))
    (isDepositMode : bool) (tokensFromUser tokensFromLists : TokenObject)
    (shown : list string) (index : nat)
  : option (Completion unit * list Event) :=
  row ← rowToken tokensFromUser tokensFromLists shown index;
  Some (if rowDisabled isDepositMode row then (Normal tt, [])
        else Eff.run (selectToken L1TokenData toERC20BridgeToken
                        bridgeTokens token row)).

(** ** The add button *)

(** The [disabled] attribute of the submit button. *)
Definition addDisabled (isAddress : string → bool) (s : Form) : bool :=
  String.eqb (newToken s) "" || negb (isAddress (newToken s)).

(** ** TokenListsPanel *)

(** [BridgeTokenList] (declared in [tokenLists]). *)
Record BridgeTokenList := {
  tl_id : Z;
  tl_originChainID : string;
  tl_name : string
}.

Inductive ListCall :=
| RemoveTokensFromList (id : Z)
| AddBridgeTokenListToBridge (tokenList : BridgeTokenList).

(** [Object.keys(bridgeTokens).some(...)]: some bridge token came from the
    list. *)
Definition isActive (bridgeTokens : gmap string ERC20BridgeToken)
    (tokenList : BridgeTokenList) : bool :=
  existsb
    (λ address,
       match bridgeTokens !! address with
       | Some token => bool_decide (bt_listID token = Some (tl_id tokenList))
       | None => false
       end)
    (map_to_list bridgeTokens).*1.

Definition toggleTokenList (bridgeTokenList : BridgeTokenList) (isActive : bool)
  : ListCall :=
  if isActive then RemoveTokensFromList (tl_id bridgeTokenList)
  else AddBridgeTokenListToBridge bridgeTokenList.

(** The [onChange] of the checkbox of a list. *)
Definition onToggle (bridgeTokens : gmap string ERC20BridgeToken)
    (tokenList : BridgeTokenList) : ListCall :=
  toggleTokenList tokenList (isActive bridgeTokens tokenList).

(** ** WithdrawalCardExecuted *)

(** [MergedTransaction] (declared in the app state), as far as the card
    reads it. *)
Record MergedTransaction := {
  tx_asset : string;
  tx_tokenAddress : option string;
  tx_txId : string
}.

(** The [balance] memo of the card: the L1 balance of the withdrawn asset. *)
Definition executedBalance (balances : BridgeBalances) (tx : MergedTransaction)
  : option Z :=
  if String.eqb (tx_asset tx) "eth" then balance (eth balances)
  else
    match tx_tokenAddress tx with
    | None => None
    | Some a =>
        if negb (Js.truthy a) then None
        else e ← erc20 balances !! a; balance e
    end.

(** ** The injected wallet *)

Module Wallet.

(** [window.ethereum]: [request] is optional; the promise of a request is
    rejected or fulfilled, possibly with nothing. *)
Record InjectedEthereumProvider := {
  request : option (string → Settled (option (list string)));
  networkVersion : string
}.

Inductive Call :=
| Request (method : string)
| Warn (message : string).

(** [window.ethereum.request?.({ method })], awaited. *)
Definition awaitRequest (e : InjectedEthereumProvider) (method : string)
  : Settled (option (list string)) * list Call :=
  match request e with
  | None => (Fulfilled None, [])
  | Some f => (f method, [Request method])
  end.

(** The result is the array the promise resolves with. *)
Definition requestNetworkSwitch (ethereum : option InjectedEthereumProvider)
  : Completion (list string) * list Call :=
  match ethereum with
  | Some e =>
      match awaitRequest e "wallet_addEthereumChain" with
      | (Rejected _, calls) =>
          (Normal [], calls ++ [Warn "requestNetworkSwitch error"])
      | (Fulfilled _, calls) =>
          (Normal [], calls ++ [Warn "No web3 injection detected"])
      end
  | None => (Normal [], [Warn "No web3 injection detected"])
  end.

End Wallet.

(** ** The order of the list *)

(** [x] may stand before [y]: ETH before everything, a present balance
    before an absent one, and of two present balances the one that is not
    smaller. *)
Definition ranksAtLeast (balances : option BridgeBalances) (isDepositMode : bool)
    (x y : string) : bool :=
  if String.eqb x ETH_IDENTIFIER then true
  else if String.eqb y ETH_IDENTIFIER then false
  else
    match getBalance balances isDepositMode x,
          getBalance balances isDepositMode y with
    | _, None => true
    | None, Some _ => false
    | Some a, Some b => b <=? a
    end.

(** ** Sample data *)

Definition wbtc : SearchableToken :=
  {| name := "Wrapped BTC"; symbol := "WBTC"; address := "0x2260";
     l2Address := Some "0x2f2a"; decimals := 8; logoURI := None;
     tokenLists := [1] |}.

Definition dai : SearchableToken :=
  {| name := "Dai Stablecoin"; symbol := "DAI"; address := "0x6b17";
     l2Address := Some "0xda10"; decimals := 18; logoURI := None;
     tokenLists := [1] |}.

(** The same address as [dai], as the user once added it: no L2 address. *)
Definition daiFromUser : SearchableToken :=
  {| name := "Dai"; symbol := "DAI"; address := "0x6b17";
     l2Address := None; decimals := 18; logoURI := None; tokenLists := [] |}.

(** A record stored under a name that every object inherits. *)
Definition oddToken : SearchableToken :=
  {| name := "Odd"; symbol := "ODD"; address := "constructor";
     l2Address := None; decimals := 18; logoURI := None; tokenLists := [] |}.

Definition noAddress : SearchableToken :=
  {| name := "Unknown"; symbol := "UNK"; address := "";
     l2Address := None; decimals := 18; logoURI := None; tokenLists := [] |}.

Definition sampleBalances : BridgeBalances :=
  {| eth := {| balance := Some 3; arbChainBalance := None |};
     erc20 := <["0x2260" := {| balance := Some 5; arbChainBalance := Some 0 |}]>
              (<["0x6b17" := {| balance := Some 5; arbChainBalance := None |}]> ∅) |}.

Definition daiBridged : ERC20BridgeToken :=
  {| bt_name := "Dai Stablecoin"; bt_symbol := "DAI"; bt_address := "0x6b17";
     bt_l2Address := Some "0xda10"; bt_decimals := 18; bt_listID := Some 1 |}.

Definition TokenDisabledError : JsError := {| err_name := "TokenDisabledError" |}.
Definition NetworkError : JsError := {| err_name := "Error" |}.

(** * Properties *)

(** ** Strings *)

Lemma truthy_false (s : string) : Js.truthy s = false ↔ s = "".
Proof. destruct s; simpl; split; congruence. Qed.

Lemma truthy_true (s : string) : Js.truthy s = true ↔ s ≠ "".
Proof. destruct s; simpl; split; congruence. Qed.

Lemma startsWith_spec (s q : string) :
  Js.startsWith s q = true ↔ ∃ post, s = q +:+ post.
Proof.
  revert s. induction q as [|b q IH]; intros s; simpl.
  - split; [intros _; by exists s | done].
  - destruct s as [|a s].
    + split; [done | intros [post H]; discriminate H].
    + destruct (Ascii.eqb_spec a b) as [->|Hne].
      * rewrite IH. split; intros [post H]; exists post.
        -- by rewrite H.
        -- by injection H.
      * split; [done | intros [post H]; injection H; intros _ ?; by subst].
Qed.

Lemma includes_spec (s q : string) :
  Js.includes s q = true ↔ substring_of q s.
Proof.
  unfold substring_of. induction s as [|a s IH].
  - simpl. rewrite orb_false_r, startsWith_spec. split.
    + intros [post H]. by exists "", post.
    + intros [[|c pre] [post H]]; [by exists post | discriminate H].
  - cbn [Js.includes]. rewrite orb_true_iff, IH, startsWith_spec. split.
    + intros [[post H]|(pre & post & H)].
      * by exists "", post.
      * exists (String a pre), post. by rewrite H.
    + intros [[|c pre] [post H]].
      * left. by exists post.
      * right. exists pre, post. by injection H.
Qed.



Lemma lowerChar_idem (c : ascii) : Js.lowerChar (Js.lowerChar c) = Js.lowerChar c.
Proof. destruct c as [[] [] [] [] [] [] [] []]; reflexivity. Qed.

Lemma toLowerCase_idem (s : string) :
  Js.toLowerCase (Js.toLowerCase s) = Js.toLowerCase s.
Proof.
  induction s as [|c s IH]; simpl; [done | by rewrite lowerChar_idem, IH].
Qed.

(** ** Arrays and objects *)

Lemma existsb_eqb_elem_of (x : string) (l : list string) :
  existsb (String.eqb x) l = true ↔ x ∈ l.
Proof.
  induction l as [|y l IH]; simpl.
  - split; [done | by intros ?%elem_of_nil].
  - rewrite orb_true_iff, IH, elem_of_cons, String.eqb_eq. done.
Qed.

Lemma elem_of_setFrom (x : string) (seen l : list string) :
  x ∈ setFrom seen l ↔ x ∈ l ∧ x ∉ seen.
Proof.
  revert seen. induction l as [|y l IH]; intros seen; simpl.
  - rewrite elem_of_nil. tauto.
  - destruct (existsb (String.eqb y) seen) eqn:E.
    + apply existsb_eqb_elem_of in E. rewrite IH, elem_of_cons.
      split; [tauto | intros [[->|?] ?]; tauto].
    + assert (y ∉ seen) by (rewrite <- existsb_eqb_elem_of, E; done).
      rewrite !elem_of_cons, IH, elem_of_cons.
      destruct (decide (x = y)) as [->|]; tauto.
Qed.

Lemma NoDup_setFrom (seen l : list string) : NoDup (setFrom seen l).
Proof.
  revert seen. induction l as [|y l IH]; intros seen; simpl.
  - constructor.
  - destruct (existsb (String.eqb y) seen); [apply IH |].
    constructor; [| apply IH].
    rewrite elem_of_setFrom, elem_of_cons. tauto.
Qed.

Lemma prop_is_Some (o : TokenObject) (k : string) :
  is_Some (prop o k) ↔ k ∈ keys o.
Proof.
  unfold keys. induction o as [|[k' v] o IH]; simpl.
  - rewrite elem_of_nil. split; [by intros [? ?] | done].
  - rewrite elem_of_cons. destruct (String.eqb_spec k' k) as [->|Hne].
    + split; [by left | by eexists].
    + rewrite IH. split; [by right | intros [->|?]; done].
Qed.

Lemma filterArr_total (f : string → option bool) (l : list string) :
  (∀ x, x ∈ l → is_Some (f x)) →
  ∃ out, filterArr f l = Some out
         ∧ (∀ x, x ∈ out ↔ x ∈ l ∧ f x = Some true)
         ∧ (∀ x r, l = x :: r → f x = Some true → ∃ r', out = x :: r').
Proof.
  induction l as [|y l IH]; intros Hf; simpl.
  - exists []. split_and!; [done | | done].
    intros x. rewrite elem_of_nil. tauto.
  - destruct (Hf y) as [b Hb]; [by left |].
    destruct IH as (out & Hout & Hin & _).
    { intros x Hx. apply Hf. by right. }
    rewrite Hb, Hout. simpl. eexists. split_and!; [done | |].
    + intros x. destruct b.
      * rewrite !elem_of_cons, Hin.
        destruct (decide (x = y)) as [->|]; [tauto |]. tauto.
      * rewrite elem_of_cons, Hin.
        split; [tauto | intros [[->|?] Hx]; [congruence | tauto]].
    + intros x r [= <- <-] Hx. rewrite Hb in Hx. injection Hx as ->. eauto.
Qed.

Lemma elem_of_insertBy cmp (x y : string) (l : list string) :
  y ∈ insertBy cmp x l ↔ y = x ∨ y ∈ l.
Proof.
  induction l as [|z l IH]; cbn [insertBy].
  - rewrite elem_of_cons, elem_of_nil. tauto.
  - destruct (forallb _ _); rewrite !elem_of_cons; [| rewrite IH]; tauto.
Qed.

Lemma insertBy_Permutation cmp (x : string) (l : list string) :
  insertBy cmp x l ≡ₚ x :: l.
Proof.
  induction l as [|z l IH]; cbn [insertBy]; [done |].
  destruct (forallb _ _); [done |]. by rewrite IH, Permutation_swap.
Qed.

Lemma fold_insertBy_Permutation cmp (l sorted : list string) :
  fold_left (λ sorted x, insertBy cmp x sorted) l sorted ≡ₚ sorted ++ l.
Proof.
  revert sorted. induction l as [|x l IH]; intros sorted; simpl.
  - by rewrite app_nil_r.
  - rewrite IH, insertBy_Permutation.
    by rewrite (Permutation_middle sorted l x).
Qed.

Lemma sortBy_Permutation cmp (l : list string) : sortBy cmp l ≡ₚ l.
Proof. unfold sortBy. by rewrite fold_insertBy_Permutation. Qed.

Lemma elem_of_sortBy cmp (y : string) (l : list string) :
  y ∈ sortBy cmp l ↔ y ∈ l.
Proof. by rewrite sortBy_Permutation. Qed.

(** ** The token list *)

Section TokensPanelFacts.

Variable balances : option BridgeBalances.
Variable isDepositMode : bool.
Variable tokensFromUser tokensFromLists : TokenObject.

Local Abbreviation candidates' := (candidates tokensFromUser tokensFromLists).
Local Abbreviation filterFn' :=
  (filterFn balances isDepositMode tokensFromUser tokensFromLists).
Local Abbreviation compareFn' := (compareFn balances isDepositMode).

(** Every candidate but ETH is a key of one of the two objects, so the
    record the filter reads exists. *)
Lemma candidate_has_record (addr : string) :
  addr ∈ candidates' → addr ≠ ETH_IDENTIFIER →
  is_Some (orElse (prop tokensFromUser addr) (prop tokensFromLists addr)).
Proof.
  unfold candidates. rewrite elem_of_cons, elem_of_setFrom, elem_of_app.
  intros [?|[[Hu|Hl] _]] Hne; [done | |].
  - apply prop_is_Some in Hu as [t ->]. by eexists.
  - apply prop_is_Some in Hl as [t Ht].
    destruct (prop tokensFromUser addr); simpl; [by eexists | by rewrite Ht].
Qed.

(** The filter callback never throws on a candidate. *)
Lemma filterFn_total (tokenSearch addr : string) :
  addr ∈ candidates' → is_Some (filterFn' tokenSearch addr).
Proof.
  intros Hin. unfold filterFn.
  destruct (negb (Js.truthy tokenSearch));
    destruct (String.eqb_spec addr ETH_IDENTIFIER) as [->|Hne]; try by eexists.
  destruct (candidate_has_record addr Hin Hne) as [t ->]. by eexists.
Qed.

(** [tokensToShow] returns: the candidates the callback accepts, sorted. *)
Lemma tokensToShow_returns (newToken : string) :
  ∃ shown,
    filterArr (filterFn' (tokenSearchOf newToken)) candidates' = Some shown
    ∧ tokensToShow balances isDepositMode tokensFromUser tokensFromLists newToken
      = Some (sortBy compareFn' shown)
    ∧ (∀ x, x ∈ shown ↔
            x ∈ candidates' ∧ filterFn' (tokenSearchOf newToken) x = Some true)
    ∧ (filterFn' (tokenSearchOf newToken) ETH_IDENTIFIER = Some true →
       ∃ r, shown = ETH_IDENTIFIER :: r).
Proof.
  destruct (filterArr_total (filterFn' (tokenSearchOf newToken)) candidates')
    as (shown & Hshown & Hin & Hhd).
  { intros x. apply filterFn_total. }
  exists shown. unfold tokensToShow. rewrite Hshown. split_and!; try done.
  intros H. by eapply Hhd.
Qed.

Lemma ETH_candidate : ETH_IDENTIFIER ∈ candidates'.
Proof. unfold candidates. by left. Qed.

(** ETH at the head of an array stays at the head when the array is
    sorted. *)
Lemma compareFn_before_ETH (x : string) :
  (compareFn' x ETH_IDENTIFIER <? 0) = true → x = ETH_IDENTIFIER.
Proof.
  unfold compareFn.
  destruct (String.eqb_spec x ETH_IDENTIFIER) as [->|_]; [done |].
  by rewrite String.eqb_refl.
Qed.

Lemma insertBy_keeps_ETH_first (x : string) (sorted : list string) :
  head sorted = Some ETH_IDENTIFIER →
  head (insertBy compareFn' x sorted) = Some ETH_IDENTIFIER.
Proof.
  destruct sorted as [|y r]; [done |]. intros [= ->]. cbn [insertBy].
  destruct (forallb _ _) eqn:E; [| done].
  cbn [forallb] in E. apply andb_true_iff in E as [E _].
  by rewrite (compareFn_before_ETH x E).
Qed.

Lemma sortBy_ETH_first (r : list string) :
  ∃ r', sortBy compareFn' (ETH_IDENTIFIER :: r) = ETH_IDENTIFIER :: r'.
Proof.
  unfold sortBy. simpl.
  assert (∀ l sorted,
            head sorted = Some ETH_IDENTIFIER →
            head (fold_left (λ sorted x, insertBy compareFn' x sorted) l sorted)
            = Some ETH_IDENTIFIER) as H.
  { induction l as [|x l IH]; intros sorted Hs; simpl; [done |].
    apply IH. by apply insertBy_keeps_ETH_first. }
  specialize (H r [ETH_IDENTIFIER] eq_refl).
  destruct (fold_left _ r _) as [|y s]; [done |].
  injection H as ->. by eexists.
Qed.

(** The four rules of the comparator. *)
Lemma compareFn_ETH_left (addr : string) : compareFn' ETH_IDENTIFIER addr = -1.
Proof. done. Qed.

Lemma compareFn_ETH_right (addr : string) :
  addr ≠ ETH_IDENTIFIER → compareFn' addr ETH_IDENTIFIER = 1.
Proof.
  intros Hne. unfold compareFn.
  by destruct (String.eqb_spec addr ETH_IDENTIFIER).
Qed.

Lemma compareFn_balances (a1 a2 : string) :
  a1 ≠ ETH_IDENTIFIER → a2 ≠ ETH_IDENTIFIER →
  compareFn' a1 a2 =
    match getBalance balances isDepositMode a1,
          getBalance balances isDepositMode a2 with
    | None, None => 0
    | None, Some _ => 1
    | Some _, None => -1
    | Some bal1, Some bal2 => if bal2 <? bal1 then -1 else 1
    end.
Proof.
  intros H1 H2. unfold compareFn.
  destruct (String.eqb_spec a1 ETH_IDENTIFIER); [done |].
  by destruct (String.eqb_spec a2 ETH_IDENTIFIER).
Qed.


(** The balance of a token is the entry of its address in the balance map:
    the field [balance] in deposit mode, [arbChainBalance] otherwise. *)
Lemma getBalance_token (addr : string) (amount : Z) :
  addr ≠ ETH_IDENTIFIER →
  getBalance balances isDepositMode addr = Some amount
  ↔ ∃ bs entry,
      balances = Some bs ∧ erc20 bs !! addr = Some entry
      ∧ (if isDepositMode then balance entry else arbChainBalance entry)
        = Some amount.
Proof.
  intros Hne. unfold getBalance.
  destruct (String.eqb_spec addr ETH_IDENTIFIER); [done |].
  destruct balances as [bs|]; simpl.
  - destruct (erc20 bs !! addr) as [entry|] eqn:E; simpl.
    + split.
      * intros H. exists bs, entry. by destruct isDepositMode.
      * intros (bs' & entry' & [= <-] & He & H). rewrite E in He.
        injection He as <-. by destruct isDepositMode.
    + split; [by destruct isDepositMode |].
      intros (bs' & entry' & [= <-] & He & _). congruence.
  - split; [by destruct isDepositMode | by intros (? & ? & ? & _)].
Qed.

(** C3.  With an empty query ETH is shown, and any other candidate is
    shown exactly when the balance map has an entry for its address whose
    amount in the active mode ([balance] in deposit mode, [arbChainBalance]
    in withdrawal mode) is present and greater than zero. *)
Theorem empty_search_keeps_positive_balances (newToken : string) :
  tokenSearchOf newToken = "" →
  ∃ out,
    tokensToShow balances isDepositMode tokensFromUser tokensFromLists newToken
      = Some out
    ∧ ETH_IDENTIFIER ∈ out
    ∧ (∀ addr, addr ∈ candidates' → addr ≠ ETH_IDENTIFIER →
         (addr ∈ out ↔
          ∃ bs entry amount,
            balances = Some bs
            ∧ erc20 bs !! addr = Some entry
            ∧ (if isDepositMode then balance entry else arbChainBalance entry)
              = Some amount
            ∧ 0 < amount)).
Proof.
  intros Hq. apply truthy_false in Hq.
  destruct (tokensToShow_returns newToken) as (shown & _ & -> & Hin & _).
  eexists. split; [done |]. split.
  - rewrite elem_of_sortBy, Hin. unfold filterFn. rewrite Hq.
    split; [apply ETH_candidate | done].
  - intros addr Hc Hne. rewrite elem_of_sortBy, Hin. unfold filterFn.
    rewrite Hq. simpl.
    destruct (String.eqb_spec addr ETH_IDENTIFIER); [done |].
    unfold hasPositiveBalance.
    destruct (getBalance balances isDepositMode addr) as [b|] eqn:Hb.
    + apply getBalance_token in Hb as (bs & entry & Hbs & He & Ha); [| done].
      split.
      * intros [_ [= Hpos]]. exists bs, entry, b. split_and!; try done. lia.
      * intros (bs' & entry' & b' & Hbs' & He' & Ha' & Hpos).
        split; [done |]. f_equal. rewrite Hbs in Hbs'. injection Hbs' as <-.
        rewrite He in He'. injection He' as <-. rewrite Ha in Ha'.
        injection Ha' as <-. lia.
    + split; [intros [_ [=]] |].
      intros (bs & entry & amount & ? & ? & ? & _).
      assert (getBalance balances isDepositMode addr = Some amount) as Hba
        by (apply getBalance_token; [done | by exists bs, entry]).
      congruence.
Qed.



(** C4, as amended.  ETH is shown exactly when the query is empty or occurs
    in "ethereumeth", and whenever it is shown it is the first row. *)
Theorem native_asset_first_when_shown (newToken : string) :
  ∃ out,
    tokensToShow balances isDepositMode tokensFromUser tokensFromLists newToken
      = Some out
    ∧ (ETH_IDENTIFIER ∈ out ↔
       tokenSearchOf newToken = ""
       ∨ substring_of (tokenSearchOf newToken) "ethereumeth")
    ∧ (ETH_IDENTIFIER ∈ out → head out = Some ETH_IDENTIFIER).
Proof.
  destruct (tokensToShow_returns newToken) as (shown & _ & -> & Hin & Hhd).
  eexists. split; [done |].
  assert (Heth : ETH_IDENTIFIER ∈ shown ↔
            filterFn' (tokenSearchOf newToken) ETH_IDENTIFIER = Some true).
  { rewrite Hin. split; [tauto | intros ?; split; [apply ETH_candidate | done]]. }
  split.
  - rewrite elem_of_sortBy, Heth, <- includes_spec. unfold filterFn.
    destruct (tokenSearchOf newToken) as [|c q] eqn:E; simpl.
    + split; [by left | done].
    + split; [intros [= ->]; by right | intros [[=]| ->]; done].
  - rewrite elem_of_sortBy, Heth. intros [r ->]%Hhd.
    by destruct (sortBy_ETH_first r) as [r' ->].
Qed.


End TokensPanelFacts.

(** *** The list on sample data *)

Example tokensToShow_no_search :
  tokensToShow (Some sampleBalances) true
    [("0x6b17", daiFromUser)] [("0x2260", wbtc); ("0x6b17", dai)] "  "
  = Some [ETH_IDENTIFIER; "0x6b17"; "0x2260"].
Proof. reflexivity. Qed.

Example tokensToShow_withdraw_mode :
  tokensToShow (Some sampleBalances) false
    [("0x6b17", daiFromUser)] [("0x2260", wbtc); ("0x6b17", dai)] ""
  = Some [ETH_IDENTIFIER].
Proof. reflexivity. Qed.

Example tokensToShow_search_eth :
  tokensToShow (Some sampleBalances) true
    [("0x6b17", daiFromUser)] [("0x2260", wbtc); ("0x6b17", dai)] " ETH"
  = Some [ETH_IDENTIFIER].
Proof. reflexivity. Qed.


Lemma empty_search_keeps_positive_balances_witness :
  tokenSearchOf "  " = ""
  ∧ ∃ out,
      tokensToShow (Some sampleBalances) true
        [("0x6b17", daiFromUser)] [("0x2260", wbtc); ("0x6b17", dai)] "  "
      = Some out
      ∧ ETH_IDENTIFIER ∈ out.
Proof.
  assert (Hq : tokenSearchOf "  " = "") by reflexivity.
  split; [exact Hq |].
  destruct (empty_search_keeps_positive_balances (Some sampleBalances) true
              [("0x6b17", daiFromUser)] [("0x2260", wbtc); ("0x6b17", dai)]
              "  " Hq) as (out & Hout & Heth & _).
  exists out. split; [exact Hout | exact Heth].
Defined.

(** C4 as stated fails: a query that does not occur in "ethereumeth" removes
    ETH from the list, here leaving no row at all. *)
Lemma native_asset_filtered_out :
  tokensToShow None true [] [] "dai" = Some []
  ∧ ¬ (∃ out, tokensToShow None true [] [] "dai" = Some out
              ∧ ETH_IDENTIFIER ∈ out ∧ head out = Some ETH_IDENTIFIER).
Proof.
  split; [reflexivity |].
  intros (out & Hout & Hin & _). vm_compute in Hout. injection Hout as <-.
  by apply elem_of_nil in Hin.
Qed.



(** C2: the comparator orders two tokens with equal present balances each
    behind the other, which no order does.  [wbtc] and [dai] both have the
    L1 balance 5. *)
Theorem compareFn_equal_balances :
  getBalance (Some sampleBalances) true "0x2260" = Some 5
  ∧ getBalance (Some sampleBalances) true "0x6b17" = Some 5
  ∧ compareFn (Some sampleBalances) true "0x2260" "0x6b17" = 1
  ∧ compareFn (Some sampleBalances) true "0x6b17" "0x2260" = 1.
Proof. split_and!; reflexivity. Qed.

Lemma compareFn_tie balances isDepositMode (a1 a2 : string) (b : Z) :
  a1 ≠ ETH_IDENTIFIER → a2 ≠ ETH_IDENTIFIER →
  getBalance balances isDepositMode a1 = Some b →
  getBalance balances isDepositMode a2 = Some b →
  compareFn balances isDepositMode a1 a2 = 1
  ∧ compareFn balances isDepositMode a2 a1 = 1.
Proof.
  intros H1 H2 Hb1 Hb2. rewrite !compareFn_balances, Hb1, Hb2 by done.
  by rewrite Z.ltb_irrefl.
Qed.



(** The name of the list record does not help the search: "stable" occurs
    in "Dai Stablecoin", the record shown in the row, but not in the user
    record the filter reads. *)
Example search_misses_list_record :
  tokensToShow (Some sampleBalances) true
    [("0x6b17", daiFromUser)] [("0x2260", wbtc); ("0x6b17", dai)] " Stable "
  = Some []
  ∧ Js.includes (searchText dai) "stable" = true.
Proof. split; reflexivity. Qed.

(** ** Selecting a token *)

Lemma hasProperty_true (bt : gmap string ERC20BridgeToken) (k : string) :
  hasProperty bt k = true ↔ is_Some (bt !! k) ∨ k ∈ objectPrototype.
Proof.
  unfold hasProperty.
  by rewrite orb_true_iff, bool_decide_eq_true, existsb_eqb_elem_of.
Qed.

Lemma hasProperty_false (bt : gmap string ERC20BridgeToken) (k : string) :
  hasProperty bt k = false ↔ bt !! k = None ∧ k ∉ objectPrototype.
Proof.
  rewrite <- not_true_iff_false, hasProperty_true, eq_None_not_Some. tauto.
Qed.

Section SelectTokenFacts.

Variable L1TokenData : Type.
Variable toERC20BridgeToken : L1TokenData → ERC20BridgeToken.

Local Abbreviation selectToken' := (selectToken L1TokenData toERC20BridgeToken).

(** Selecting ETH clears the selection. *)
Lemma selectToken_null bridgeTokens token :
  Eff.run (selectToken' bridgeTokens token None)
  = (Normal tt, [Close; SetSelectedToken None]).
Proof. reflexivity. Qed.

(** C9.  A record whose address is the empty string closes the modal and
    nothing else: no callback, no action and no request follows. *)
Theorem empty_address_only_closes bridgeTokens token (t : SearchableToken) :
  address t = "" →
  Eff.run (selectToken' bridgeTokens token (Some t)) = (Normal tt, [Close]).
Proof. intros H. unfold Eff.run, selectToken, Eff.bind. simpl. by rewrite H. Qed.

(** C6, as amended.  A record with a non-empty address that the bridge
    token set neither has nor inherits from [Object.prototype]: the modal
    is closed, [onImportToken] is called with that address, and nothing
    else happens; the selection stays. *)
Theorem unknown_token_requests_import
    (bt : gmap string ERC20BridgeToken) token (t : SearchableToken)
    (current : option ERC20BridgeToken) :
  address t ≠ "" →
  bt !! address t = None →
  address t ∉ objectPrototype →
  Eff.run (selectToken' (Some bt) token (Some t))
    = (Normal tt, [Close; ImportToken (address t)])
  ∧ selectionAfter current [Close; ImportToken (address t)] = current.
Proof.
  intros Ha%truthy_true Hbt Hproto. split; [| done].
  assert (hasProperty bt (address t) = false) as Hp
    by by apply hasProperty_false.
  unfold Eff.run, selectToken, Eff.bind, Eff.tryCatch. simpl.
  by rewrite Ha, Hp.
Qed.

(** X29.  The metadata request of a known token is rejected with a value
    other than [undefined] and [null]: [selectToken] still completes, the
    selection stays, the error is logged, and the notice is shown exactly
    for a [TokenDisabledError]. *)
Theorem fetch_failure_is_contained
    (bt : gmap string ERC20BridgeToken)
    (getL1TokenData : string → Settled (option L1TokenData))
    (t : SearchableToken) (error : JsError)
    (current : option ERC20BridgeToken) :
  address t ≠ "" →
  is_Some (bt !! address t) →
  getL1TokenData (address t) = Rejected (Some error) →
  ∃ tr,
    Eff.run (selectToken' (Some bt) (Some getL1TokenData) (Some t))
      = (Normal tt, tr)
    ∧ tr = [Close; GetL1TokenData (address t); ConsoleWarn (Some error)]
           ++ (if String.eqb (err_name error) "TokenDisabledError"
               then [Alert disabledNotice] else [])
    ∧ selectionAfter current tr = current.
Proof.
  intros Ha%truthy_true Hbt Hget.
  assert (hasProperty bt (address t) = true) as Hp
    by (apply hasProperty_true; by left).
  eexists. split_and!; [| done |].
  - unfold Eff.run, selectToken, awaitL1TokenData, Eff.bind, Eff.tryCatch.
    simpl. rewrite Ha, Hp. simpl. rewrite Hget. simpl.
    by destruct (String.eqb (err_name error) "TokenDisabledError").
  - by destruct (String.eqb (err_name error) "TokenDisabledError").
Qed.

(** The same request rejected with [undefined]: the catch block logs it
    and then throws on reading [error.name], so the promise of
    [selectToken] is rejected with a [TypeError].  The selection stays. *)
Lemma fetch_rejected_with_nothing
    (bt : gmap string ERC20BridgeToken)
    (getL1TokenData : string → Settled (option L1TokenData))
    (t : SearchableToken) (current : option ERC20BridgeToken) :
  address t ≠ "" →
  is_Some (bt !! address t) →
  getL1TokenData (address t) = Rejected None →
  Eff.run (selectToken' (Some bt) (Some getL1TokenData) (Some t))
    = (Throw (Some TypeError),
       [Close; GetL1TokenData (address t); ConsoleWarn None])
  ∧ selectionAfter current
      [Close; GetL1TokenData (address t); ConsoleWarn None] = current.
Proof.
  intros Ha%truthy_true Hbt Hget.
  assert (hasProperty bt (address t) = true) as Hp
    by (apply hasProperty_true; by left).
  split; [| done].
  unfold Eff.run, selectToken, awaitL1TokenData, Eff.bind, Eff.tryCatch.
  simpl. rewrite Ha, Hp. simpl. by rewrite Hget.
Qed.

End SelectTokenFacts.

Lemma empty_address_only_closes_witness :
  address noAddress = ""
  ∧ Eff.run (selectToken Z (λ _, daiBridged) (Some ∅) None (Some noAddress))
    = (Normal tt, [Close]).
Proof.
  split; [reflexivity |].
  apply (empty_address_only_closes Z (λ _, daiBridged) (Some ∅) None noAddress).
  reflexivity.
Defined.

(** C6 as stated fails: the empty address is not a key of the bridge token
    set, yet selecting such a record does not call [onImportToken]. *)
Lemma empty_address_not_imported :
  (∅ : gmap string ERC20BridgeToken) !! address noAddress = None
  ∧ Eff.run (selectToken Z (λ _, daiBridged) (Some ∅) None (Some noAddress))
    = (Normal tt, [Close])
  ∧ Eff.run (selectToken Z (λ _, daiBridged) (Some ∅) None (Some noAddress))
    ≠ (Normal tt, [Close; ImportToken (address noAddress)]).
Proof. split_and!; [reflexivity | reflexivity | vm_compute; discriminate]. Qed.

(** Nor is an address imported that names an inherited property: the read
    of [bridgeTokens] finds [Object.prototype.constructor], and the token
    is fetched and selected although the set is empty. *)
Example inherited_name_is_not_imported :
  (∅ : gmap string ERC20BridgeToken) !! address oddToken = None
  ∧ Eff.run (selectToken Z (λ _, daiBridged) (Some ∅)
               (Some (λ _, Fulfilled (Some 0))) (Some oddToken))
    = (Normal tt,
       [Close; GetL1TokenData "constructor"; UpdateTokenData "constructor";
        SetSelectedToken (Some (withL2Address daiBridged None))]).
Proof. split; reflexivity. Qed.

Lemma unknown_token_requests_import_witness :
  address dai ≠ ""
  ∧ (∅ : gmap string ERC20BridgeToken) !! address dai = None
  ∧ Eff.run (selectToken Z (λ _, daiBridged) (Some ∅) None (Some dai))
    = (Normal tt, [Close; ImportToken "0x6b17"]).
Proof.
  assert (Ha : address dai ≠ "") by (vm_compute; discriminate).
  assert (Hbt : (∅ : gmap string ERC20BridgeToken) !! address dai = None)
    by reflexivity.
  assert (Hp : address dai ∉ objectPrototype).
  { intros H. repeat (apply elem_of_cons in H as [H|H]; [discriminate H |]).
    by apply elem_of_nil in H. }
  split_and!; [exact Ha | exact Hbt |].
  exact (proj1 (unknown_token_requests_import Z (λ _, daiBridged) ∅ None dai
                  None Ha Hbt Hp)).
Defined.

Lemma fetch_failure_is_contained_witness :
  ∃ tr,
    Eff.run (selectToken Z (λ _, daiBridged)
               (Some (<["0x6b17" := daiBridged]> ∅))
               (Some (λ _, Rejected (Some TokenDisabledError))) (Some dai))
      = (Normal tt, tr)
    ∧ tr = [Close; GetL1TokenData "0x6b17";
            ConsoleWarn (Some TokenDisabledError); Alert disabledNotice]
    ∧ selectionAfter (Some daiBridged) tr = Some daiBridged.
Proof.
  apply (fetch_failure_is_contained Z (λ _, daiBridged)
           (<["0x6b17" := daiBridged]> ∅)
           (λ _, Rejected (Some TokenDisabledError))
           dai TokenDisabledError (Some daiBridged)).
  - vm_compute; discriminate.
  - exists daiBridged. reflexivity.
  - reflexivity.
Defined.

(** C7: a metadata request that is rejected with [undefined] makes the
    catch block of [selectToken] throw, so the failure reaches the caller:
    the promise is rejected with a [TypeError]. *)
Theorem fetch_failure_can_propagate :
  Eff.run (selectToken Z (λ _, daiBridged)
             (Some (<["0x6b17" := daiBridged]> ∅))
             (Some (λ _, Rejected None)) (Some dai))
  = (Throw (Some TypeError),
     [Close; GetL1TokenData "0x6b17"; ConsoleWarn None]).
Proof. reflexivity. Qed.

Example fetch_failure_disabled :
  Eff.run (selectToken Z (λ _, daiBridged)
             (Some (<["0x6b17" := daiBridged]> ∅))
             (Some (λ _, Rejected (Some TokenDisabledError))) (Some dai))
  = (Normal tt,
     [Close; GetL1TokenData "0x6b17"; ConsoleWarn (Some TokenDisabledError);
      Alert disabledNotice]).
Proof. reflexivity. Qed.

(** Any other error object is logged and nothing more. *)
Example fetch_failure_other_error :
  Eff.run (selectToken Z (λ _, daiBridged)
             (Some (<["0x6b17" := daiBridged]> ∅))
             (Some (λ _, Rejected (Some NetworkError))) (Some dai))
  = (Normal tt,
     [Close; GetL1TokenData "0x6b17"; ConsoleWarn (Some NetworkError)]).
Proof. reflexivity. Qed.

(** A successful request selects the fresh metadata with the L2 address of
    the clicked record. *)
Example fetch_success :
  Eff.run (selectToken Z (λ _, daiBridged)
             (Some (<["0x6b17" := daiBridged]> ∅))
             (Some (λ _, Fulfilled (Some 0))) (Some daiFromUser))
  = (Normal tt,
     [Close; GetL1TokenData "0x6b17"; UpdateTokenData "0x6b17";
      SetSelectedToken (Some (withL2Address daiBridged None))]).
Proof. reflexivity. Qed.

(** ** The add-token form *)

Lemma filter_delete_own {A} (P : A → bool) (l : list A) (i : nat) (x : A) :
  l !! i = Some x → P x = true →
  length (List.filter P (delete i l)) = pred (length (List.filter P l)).
Proof.
  revert i. induction l as [|y l IH]; intros [|i]; simpl; try done.
  - intros [= ->] ->. done.
  - intros Hi Hx. destruct (P y); simpl; [| by eapply IH].
    rewrite (IH i Hi Hx).
    assert (0 < length (List.filter P l))%nat; [| lia].
    apply list_elem_of_lookup_2, list_elem_of_In in Hi.
    assert (In x (List.filter P l)) as Hin by by apply filter_In.
    destruct (List.filter P l); [done | simpl; lia].
Qed.

Lemma filter_delete_other {A} (P : A → bool) (l : list A) (i : nat) (x : A) :
  l !! i = Some x → P x = false →
  List.filter P (delete i l) = List.filter P l.
Proof.
  revert i. induction l as [|y l IH]; intros [|i]; simpl; try done.
  - intros [= ->] ->. done.
  - intros Hi Hx. by rewrite (IH i Hi Hx).
Qed.

Lemma filter_later_mount (l : list (nat * string)) (m : nat) :
  Forall (λ p, (p.1 ≤ m)%nat) l →
  List.filter (λ p, Nat.eqb p.1 (S m)) l = [].
Proof.
  induction 1 as [|p l Hp _ IH]; simpl; [done |].
  destruct (Nat.eqb_spec p.1 (S m)); [lia | done].
Qed.

Section AddTokenFacts.

Variable isAddress : string → bool.

Lemma flagTracksRequest_step (s s' : Form) (i : Input) :
  flagTracksRequest s → step isAddress s i = Some s' → flagTracksRequest s'.
Proof.
  intros [Hflag Hle]. destruct i as [value| |i r|]; simpl.
  - intros [= <-]. by split.
  - intros [= <-]. unfold addNewToken.
    destruct (negb (isAddress (newToken s)) || isAddingToken s) eqn:E;
      [by split |].
    apply orb_false_iff in E as [_ Hf].
    destruct Hflag as [[Ht _]|[_ Hnil]]; [congruence |].
    split.
    + left. split; [done |]. unfold ownRequests in *. simpl.
      rewrite List.filter_app, Hnil. simpl. by rewrite Nat.eqb_refl.
    + simpl. apply Forall_app. split; [done |]. by repeat constructor.
  - destruct (inFlight s !! i) as [[m a]|] eqn:E; [| done]. intros [= <-].
    split; [| simpl; by apply Forall_delete].
    unfold ownRequests in *. simpl.
    destruct (Nat.eqb m (mount s)) eqn:Em.
    + right. split; [done |].
      assert (length (List.filter (λ p, Nat.eqb p.1 (mount s))
                        (delete i (inFlight s))) = 0%nat) as Hlen.
      { rewrite (filter_delete_own _ _ i (m, a) E Em).
        destruct Hflag as [[_ ->]|[_ ->]]; done. }
      by destruct (List.filter _ (delete i (inFlight s))).
    + by rewrite (filter_delete_other _ _ i (m, a) E Em).
  - intros [= <-]. split.
    + right. split; [done |]. unfold ownRequests. simpl.
      by apply filter_later_mount.
    + simpl. eapply Forall_impl; [exact Hle |]. simpl. intros p ?. lia.
Qed.

Lemma flagTracksRequest_initial : flagTracksRequest initialForm.
Proof. split; [by right | constructor]. Qed.

Lemma flagTracksRequest_steps (inputs : list Input) (s s' : Form) :
  flagTracksRequest s → steps isAddress s inputs = Some s' →
  flagTracksRequest s'.
Proof.
  revert s. induction inputs as [|i inputs IH]; intros s Hinv; simpl.
  - by intros [= <-].
  - destruct (step isAddress s i) as [s1|] eqn:E; [| done]. simpl.
    apply IH. by eapply flagTracksRequest_step.
Qed.

(** C10, as amended.  After any sequence of events, remounts included: at
    most one [token.add] request of the mounted panel is in flight; while
    the flag is set a submission changes nothing; and when the request of
    the mounted panel settles, fulfilled or rejected, the flag is
    cleared. *)
Theorem one_add_request_per_mount (inputs : list Input) (s : Form) :
  steps isAddress initialForm inputs = Some s →
  (length (ownRequests s) ≤ 1)%nat
  ∧ (isAddingToken s = true →
     length (ownRequests s) = 1%nat ∧ step isAddress s Submit = Some s)
  ∧ (∀ i r a s',
       inFlight s !! i = Some (mount s, a) →
       step isAddress s (Settle i r) = Some s' →
       isAddingToken s' = false ∧ ownRequests s' = []).
Proof.
  intros Hrun.
  assert (Hinv : flagTracksRequest s).
  { eapply flagTracksRequest_steps; [| exact Hrun].
    apply flagTracksRequest_initial. }
  split_and!.
  - destruct Hinv as [[[_ ->]|[_ ->]] _]; simpl; lia.
  - intros Hflag. destruct Hinv as [[[_ Hlen]|[Hf _]] _]; [| congruence].
    split; [done |]. simpl. unfold addNewToken.
    by rewrite Hflag, orb_true_r.
  - intros i r a s' Hi Hstep.
    pose proof (flagTracksRequest_step s s' (Settle i r) Hinv Hstep) as Hinv'.
    simpl in Hstep. rewrite Hi in Hstep. injection Hstep as <-.
    destruct Hinv' as [[[Ht _]|[Hf Hnil]] _].
    + simpl in Ht. by rewrite Nat.eqb_refl in Ht.
    + done.
Qed.

End AddTokenFacts.

Lemma one_add_request_per_mount_witness :
  steps (λ _, true) initialForm [Change "0x6b17"; Submit; Submit]
  = Some {| mount := 0; newToken := "0x6b17"; isAddingToken := true;
            inFlight := [(0%nat, "0x6b17")]; calls := [TokenAdd "0x6b17"] |}
  ∧ (length [(0%nat, "0x6b17")] ≤ 1)%nat.
Proof.
  assert (Hrun : steps (λ _, true) initialForm [Change "0x6b17"; Submit; Submit]
                 = Some {| mount := 0; newToken := "0x6b17";
                           isAddingToken := true;
                           inFlight := [(0%nat, "0x6b17")];
                           calls := [TokenAdd "0x6b17"] |}) by reflexivity.
  split; [exact Hrun |].
  exact (proj1 (one_add_request_per_mount (λ _, true) _ _ Hrun)).
Defined.

(** C10 as stated fails: a request is started, the panel is left for the
    token lists and entered again, and a second request is started while
    the first is still in flight. *)
Lemma two_add_requests_after_remount :
  steps (λ _, true) initialForm
    [Change "0x6b17"; Submit; Remount; Change "0x2260"; Submit]
  = Some {| mount := 1; newToken := "0x2260"; isAddingToken := true;
            inFlight := [(0%nat, "0x6b17"); (1%nat, "0x2260")];
            calls := [TokenAdd "0x6b17"; TokenAdd "0x2260"] |}
  ∧ ¬ (length [(0%nat, "0x6b17"); (1%nat, "0x2260")] ≤ 1)%nat.
Proof. split; [reflexivity | simpl; lia]. Qed.

(** The second submission is dropped, and after the request has settled the
    form accepts a new one. *)
Example addNewToken_run :
  steps (λ _, true) initialForm
    [Change "0x6b17"; Submit; Submit;
     Settle 0 (Rejected (Some TokenDisabledError)); Submit]
  = Some {| mount := 0; newToken := "0x6b17"; isAddingToken := true;
            inFlight := [(0%nat, "0x6b17")];
            calls := [TokenAdd "0x6b17"; ConsoleLog; Alert disabledNotice;
                      TokenAdd "0x6b17"] |}.
Proof. reflexivity. Qed.

(** * Further properties *)

(** ** Address labels *)

Lemma append_cons (c : ascii) (a b : string) :
  String c a +:+ b = String c (a +:+ b).
Proof. reflexivity. Qed.


Lemma length_append_s (a b : string) :
  String.length (a +:+ b) = (String.length a + String.length b)%nat.
Proof.
  induction a as [|x a IH]; [done |].
  change (S (String.length (a +:+ b))
          = S (String.length a + String.length b)). by f_equal.
Qed.

Lemma length_takeS (n : nat) (s : string) :
  String.length (takeS n s) = (n `min` String.length s)%nat.
Proof.
  revert s. induction n as [|n IH]; intros [|c s]; simpl; try done.
  by rewrite IH.
Qed.

Lemma length_dropS (n : nat) (s : string) :
  String.length (dropS n s) = (String.length s - n)%nat.
Proof.
  revert s. induction n as [|n IH]; intros [|c s]; simpl; try done.
Qed.

Lemma takeS_dropS (n : nat) (s : string) : takeS n s +:+ dropS n s = s.
Proof.
  revert s. induction n as [|n IH]; intros [|c s]; simpl; try done.
  by rewrite append_cons, IH.
Qed.

Lemma takeS_all (n : nat) (s : string) :
  (String.length s ≤ n)%nat → takeS n s = s.
Proof.
  revert s. induction n as [|n IH]; intros [|c s]; simpl; try done; [lia |].
  intros H. rewrite IH; [done | lia].
Qed.

Lemma dropS_dropS (n m : nat) (s : string) :
  dropS n (dropS m s) = dropS (m + n) s.
Proof.
  revert s. induction m as [|m IH]; intros s; simpl; [done |].
  destruct s as [|c s]; [by destruct n | apply IH].
Qed.

(** The two pieces [shortenAddress] cuts out, without the index clamping. *)
Lemma shortenAddress_pieces (a : string) :
  shortenAddress a
  = takeS 5 a +:+ "..." +:+ dropS (String.length a - 4) a.
Proof.
  unfold shortenAddress, jsSubstring.
  set (len := Z.of_nat (String.length a)).
  assert (0 ≤ len) by lia.
  replace (Z.to_nat (Z.min (0 `max` (0 `min` len)) (0 `max` (5 `min` len))))
    with 0%nat by lia.
  replace (Z.to_nat (Z.max (0 `max` (0 `min` len)) (0 `max` (5 `min` len))
                     - Z.min (0 `max` (0 `min` len)) (0 `max` (5 `min` len))))
    with (5 `min` String.length a)%nat by lia.
  replace (Z.to_nat (Z.min (0 `max` ((len - 4) `min` len))
                           (0 `max` (len `min` len))))
    with (String.length a - 4)%nat by lia.
  replace (Z.to_nat (Z.max (0 `max` ((len - 4) `min` len))
                           (0 `max` (len `min` len))
                     - Z.min (0 `max` ((len - 4) `min` len))
                             (0 `max` (len `min` len))))
    with (String.length a `min` 4)%nat by lia.
  simpl dropS at 1. f_equal; [| f_equal].
  - destruct (decide (5 ≤ String.length a)%nat).
    + by rewrite Nat.min_l.
    + rewrite Nat.min_r by lia. rewrite !takeS_all; [done | lia | lia].
  - apply takeS_all. rewrite length_dropS. lia.
Qed.

(** X1.  Of an address of nine characters or more, the label keeps the first
    five and the last four and puts three dots for the rest. *)
Theorem shortenAddress_keeps_both_ends (a : string) :
  (9 ≤ String.length a)%nat →
  ∃ first middle last,
    a = first +:+ middle +:+ last
    ∧ String.length first = 5%nat
    ∧ String.length last = 4%nat
    ∧ shortenAddress a = first +:+ "..." +:+ last.
Proof.
  intros Hlen.
  exists (takeS 5 a), (takeS (String.length a - 9) (dropS 5 a)),
         (dropS (String.length a - 4) a).
  split_and!.
  - replace (String.length a - 4)%nat with (5 + (String.length a - 9))%nat by lia.
    rewrite <- dropS_dropS, takeS_dropS, takeS_dropS. done.
  - rewrite length_takeS. lia.
  - rewrite length_dropS. lia.
  - apply shortenAddress_pieces.
Qed.

Lemma shortenAddress_keeps_both_ends_witness :
  ∃ first middle last,
    "0x6b175474e89094c44da98b954eedeac495271d0f" = first +:+ middle +:+ last
    ∧ String.length first = 5%nat
    ∧ String.length last = 4%nat
    ∧ shortenAddress "0x6b175474e89094c44da98b954eedeac495271d0f"
      = first +:+ "..." +:+ last.
Proof.
  apply (shortenAddress_keeps_both_ends
           "0x6b175474e89094c44da98b954eedeac495271d0f").
  vm_compute. lia.
Defined.

Example shortenAddress_dai :
  shortenAddress "0x6b175474e89094c44da98b954eedeac495271d0f" = "0x6b1...1d0f".
Proof. reflexivity. Qed.

Lemma length_shortenAddress (a : string) :
  String.length (shortenAddress a)
  = (5 `min` String.length a + 3 + 4 `min` String.length a)%nat.
Proof.
  rewrite shortenAddress_pieces.
  rewrite !length_append_s, length_takeS, length_dropS.
  change (String.length "...") with 3%nat. lia.
Qed.

(** X2.  The label has at most twelve characters; of a text shorter than five
    characters it shows the whole text twice. *)
Theorem shortenAddress_length (a : string) :
  String.length (shortenAddress a)
  = (5 `min` String.length a + 3 + 4 `min` String.length a)%nat
  ∧ ((String.length a ≤ 4)%nat → shortenAddress a = a +:+ "..." +:+ a).
Proof.
  split; [apply length_shortenAddress |].
  rewrite shortenAddress_pieces. intros H. rewrite takeS_all by lia.
  replace (String.length a - 4)%nat with 0%nat by lia. by destruct a.
Qed.

Lemma shortenAddress_length_witness :
  (String.length "0x1" ≤ 4)%nat ∧ shortenAddress "0x1" = "0x1...0x1".
Proof.
  split; [vm_compute; lia |].
  apply (proj2 (shortenAddress_length "0x1")). vm_compute. lia.
Defined.

(** ** More on the token list *)



Lemma isWhiteSpace_lowerChar (c : ascii) :
  Js.isWhiteSpace (Js.lowerChar c) = Js.isWhiteSpace c.
Proof. destruct c as [[] [] [] [] [] [] [] []]; reflexivity. Qed.

Lemma trimStart_toLowerCase (s : string) :
  Js.trimStart (Js.toLowerCase s) = Js.toLowerCase (Js.trimStart s).
Proof.
  induction s as [|c s IH]; simpl; [done |].
  rewrite isWhiteSpace_lowerChar. by destruct (Js.isWhiteSpace c).
Qed.

Lemma trimEnd_toLowerCase (s : string) :
  Js.trimEnd (Js.toLowerCase s) = Js.toLowerCase (Js.trimEnd s).
Proof.
  induction s as [|c s IH]; simpl; [done |].
  rewrite IH, isWhiteSpace_lowerChar.
  destruct (Js.trimEnd s); simpl; [by destruct (Js.isWhiteSpace c) | done].
Qed.

Lemma trimEnd_idem (s : string) : Js.trimEnd (Js.trimEnd s) = Js.trimEnd s.
Proof.
  induction s as [|c s IH]; simpl; [done |].
  destruct (Js.trimEnd s) as [|d t] eqn:E.
  - destruct (Js.isWhiteSpace c) eqn:W; simpl; [done | by rewrite W].
  - change (Js.trimEnd (String c (String d t)))
      with (match Js.trimEnd (String d t) with
            | EmptyString =>
                if Js.isWhiteSpace c then EmptyString else String c EmptyString
            | r' => String c r'
            end).
    by rewrite IH.
Qed.

Lemma trimStart_head (s : string) :
  Js.trimStart s = ""
  ∨ ∃ c r, Js.trimStart s = String c r ∧ Js.isWhiteSpace c = false.
Proof.
  induction s as [|c s IH]; simpl; [by left |].
  destruct (Js.isWhiteSpace c) eqn:W; [done | right; by exists c, s].
Qed.

Lemma trim_idem (s : string) : Js.trim (Js.trim s) = Js.trim s.
Proof.
  unfold Js.trim. destruct (trimStart_head s) as [->|(c & r & -> & W)]; [done |].
  assert (∃ r', Js.trimEnd (String c r) = String c r') as [r' E].
  { simpl. destruct (Js.trimEnd r); rewrite ?W; by eexists. }
  rewrite E. simpl Js.trimStart. rewrite W, <- E. apply trimEnd_idem.
Qed.

Section TokensPanelMore.

Variable balances : option BridgeBalances.
Variable isDepositMode : bool.
Variable tokensFromUser tokensFromLists : TokenObject.

Local Abbreviation candidates' := (candidates tokensFromUser tokensFromLists).
Local Abbreviation tokensToShow' :=
  (tokensToShow balances isDepositMode tokensFromUser tokensFromLists).
Local Abbreviation compareFn' := (compareFn balances isDepositMode).
Local Abbreviation rank := (λ x y, ranksAtLeast balances isDepositMode x y = true).

Lemma elem_of_candidates (x : string) :
  x ∈ candidates' ↔
  x = ETH_IDENTIFIER ∨ x ∈ keys tokensFromUser ∨ x ∈ keys tokensFromLists.
Proof.
  unfold candidates.
  rewrite elem_of_cons, elem_of_setFrom, elem_of_app, elem_of_nil. tauto.
Qed.

(** X3.  The candidates are ETH and then every key of the two objects, each key
    once. *)
Theorem candidates_are_the_keys :
  (∀ x, x ∈ candidates' ↔
        x = ETH_IDENTIFIER ∨ x ∈ keys tokensFromUser ∨ x ∈ keys tokensFromLists)
  ∧ ∃ r, candidates' = ETH_IDENTIFIER :: r ∧ NoDup r.
Proof.
  split; [apply elem_of_candidates |].
  eexists. split; [reflexivity | apply NoDup_setFrom].
Qed.

Lemma filterArr_sublist (f : string → option bool) (l out : list string) :
  filterArr f l = Some out → out `sublist_of` l.
Proof.
  revert out. induction l as [|x l IH]; intros out; simpl.
  - intros [= <-]. constructor.
  - destruct (f x) as [b|]; [| done]. simpl.
    destruct (filterArr f l) as [r|]; [| done]. simpl. intros [= <-].
    destruct b; [apply sublist_skip | apply sublist_cons]; by apply IH.
Qed.

(** X4.  No address is shown twice, as long as the identifier of ETH is not
    itself a key of one of the objects. *)
Theorem shown_at_most_once (newToken : string) :
  ETH_IDENTIFIER ∉ keys tokensFromUser →
  ETH_IDENTIFIER ∉ keys tokensFromLists →
  ∃ out, tokensToShow' newToken = Some out ∧ NoDup out.
Proof.
  intros Hu Hl.
  destruct (tokensToShow_returns balances isDepositMode tokensFromUser
              tokensFromLists newToken) as (shown & Hshown & Hsort & _).
  eexists. split; [exact Hsort |].
  rewrite sortBy_Permutation.
  eapply sublist_NoDup; [| by eapply filterArr_sublist].
  unfold candidates. constructor; [| apply NoDup_setFrom].
  rewrite elem_of_setFrom, elem_of_app. tauto.
Qed.

Lemma compareFn_ahead (x y : string) :
  (compareFn' x y <? 0) = true → rank x y.
Proof.
  unfold compareFn, ranksAtLeast.
  destruct (String.eqb x ETH_IDENTIFIER), (String.eqb y ETH_IDENTIFIER);
    try done.
  destruct (getBalance balances isDepositMode x) as [a|],
           (getBalance balances isDepositMode y) as [b|]; try done.
  destruct (b <? a) eqn:E; [intros _; lia | done].
Qed.

Lemma compareFn_not_ahead (x y : string) :
  (compareFn' x y <? 0) = false → rank y x.
Proof.
  unfold compareFn, ranksAtLeast.
  destruct (String.eqb x ETH_IDENTIFIER), (String.eqb y ETH_IDENTIFIER);
    try done.
  destruct (getBalance balances isDepositMode x) as [a|],
           (getBalance balances isDepositMode y) as [b|]; try done.
  destruct (b <? a) eqn:E; [done | intros _; lia].
Qed.

Lemma ranksAtLeast_trans (x y z : string) : rank x y → rank y z → rank x z.
Proof.
  unfold ranksAtLeast.
  destruct (String.eqb x ETH_IDENTIFIER), (String.eqb y ETH_IDENTIFIER),
           (String.eqb z ETH_IDENTIFIER); try done.
  destruct (getBalance balances isDepositMode x) as [a|],
           (getBalance balances isDepositMode y) as [b|],
           (getBalance balances isDepositMode z) as [c|]; try done.
  lia.
Qed.

Lemma insertBy_sorted (x : string) (l : list string) :
  StronglySorted rank l → StronglySorted rank (insertBy compareFn' x l).
Proof.
  induction 1 as [|y l Hl IH Hy]; cbn [insertBy].
  - repeat constructor.
  - destruct (forallb _ (y :: l)) eqn:E.
    + constructor; [by constructor |].
      apply Forall_forall. intros z Hz%list_elem_of_In.
      apply compareFn_ahead. by eapply forallb_forall in E.
    + constructor; [exact IH |].
      apply Forall_forall. intros z [->|Hz]%elem_of_insertBy;
        [| by eapply Forall_forall in Hy].
      assert (∃ w, w ∈ y :: l ∧ (compareFn' x w <? 0) = false) as (w & Hw & Hc).
      { clear -E. induction (y :: l) as [|w k IHk]; [done |].
        cbn [forallb] in E. apply andb_false_iff in E as [E|E].
        - exists w. split; [by left | done].
        - destruct (IHk E) as (w' & ? & ?). exists w'. split; [by right | done]. }
      apply compareFn_not_ahead in Hc.
      apply elem_of_cons in Hw as [->|Hw]; [exact Hc |].
      eapply ranksAtLeast_trans; [| exact Hc]. by eapply Forall_forall in Hy.
Qed.

(** X5.  The list is in order: ETH on top, then the tokens by falling balance,
    and the tokens without a balance at the end. *)
Theorem shown_in_balance_order (newToken : string) :
  ∃ out,
    tokensToShow' newToken = Some out
    ∧ StronglySorted (λ x y, ranksAtLeast balances isDepositMode x y = true) out.
Proof.
  destruct (tokensToShow_returns balances isDepositMode tokensFromUser
              tokensFromLists newToken) as (shown & _ & Hsort & _).
  eexists. split; [exact Hsort |]. clear Hsort. unfold sortBy.
  assert (∀ l sorted,
            StronglySorted rank sorted →
            StronglySorted rank
              (fold_left (λ sorted x, insertBy compareFn' x sorted) l sorted))
    as H.
  { induction l as [|x l IH]; intros sorted Hs; simpl; [done |].
    apply IH. by apply insertBy_sorted. }
  apply H. constructor.
Qed.

(** X6.  The list depends on the text of the search field only up to case and
    surrounding white space. *)
Theorem query_is_normalised (newToken : string) :
  tokensToShow' (Js.toLowerCase newToken) = tokensToShow' newToken
  ∧ tokensToShow' (Js.trim newToken) = tokensToShow' newToken.
Proof.
  assert (tokenSearchOf (Js.toLowerCase newToken) = tokenSearchOf newToken)
    as Hcase.
  { unfold tokenSearchOf, Js.trim.
    by rewrite trimStart_toLowerCase, trimEnd_toLowerCase, toLowerCase_idem. }
  assert (tokenSearchOf (Js.trim newToken) = tokenSearchOf newToken) as Htrim.
  { unfold tokenSearchOf. by rewrite trim_idem. }
  unfold tokensToShow. by rewrite Hcase, Htrim.
Qed.



End TokensPanelMore.

Lemma shown_at_most_once_witness :
  ∃ out,
    tokensToShow (Some sampleBalances) true
      [("0x6b17", daiFromUser)] [("0x2260", wbtc); ("0x6b17", dai)] "0x"
    = Some out
    ∧ NoDup out.
Proof.
  apply (shown_at_most_once (Some sampleBalances) true
           [("0x6b17", daiFromUser)] [("0x2260", wbtc); ("0x6b17", dai)] "0x").
  - intros H. repeat (apply elem_of_cons in H as [H|H]; [discriminate H |]).
    by apply elem_of_nil in H.
  - intros H. repeat (apply elem_of_cons in H as [H|H]; [discriminate H |]).
    by apply elem_of_nil in H.
Defined.


(** ** More on selecting a token *)

Ltac run_selectToken :=
  unfold Eff.run, selectToken, awaitL1TokenData, Eff.tryCatch, Eff.bind,
    Eff.emit, Eff.ret, Eff.throw.

Ltac split_cases :=
  repeat (simpl in *;
          first
            [ match goal with
              | |- context [match ?x with _ => _ end] =>
                  is_var x; destruct x eqn:?
              end
            | match goal with
              | |- context [Js.truthy ?a] => destruct (Js.truthy a) eqn:?
              end
            | match goal with
              | |- context [hasProperty ?b ?k] =>
                  destruct (hasProperty b k) eqn:?
              end
            | match goal with
              | |- context [match ?f ?a with
                            | Fulfilled _ => _
                            | Rejected _ => _
                            end] =>
                  destruct (f a) eqn:?
              end
            | match goal with
              | |- context [String.eqb ?a ?b] => destruct (String.eqb a b) eqn:?
              end ]).

Ltac in_trace H :=
  repeat (apply elem_of_cons in H as [H|H]; [try discriminate H |]);
  try (by apply elem_of_nil in H).

Section SelectTokenMore.

Variable L1TokenData : Type.
Variable toERC20BridgeToken : L1TokenData → ERC20BridgeToken.

Local Abbreviation selectToken' := (selectToken L1TokenData toERC20BridgeToken).

(** X9.  Whatever is clicked and whatever the collaborators answer, the
    first call of [selectToken] is [close].  Its promise is fulfilled in
    every case but one: the metadata request of a token that the read of
    the bridge token set finds is rejected with [undefined], and then the
    promise is rejected with the [TypeError] of the catch block. *)
Theorem selectToken_closes_and_rejects_only_on_nothing
    bridgeTokens token _token :
  ∃ c tr,
    Eff.run (selectToken' bridgeTokens token _token) = (c, Close :: tr)
    ∧ (c = Normal tt ∨ c = Throw (Some TypeError))
    ∧ (c = Throw (Some TypeError) ↔
       ∃ t bt getL1TokenData,
         _token = Some t ∧ address t ≠ ""
         ∧ bridgeTokens = Some bt ∧ hasProperty bt (address t) = true
         ∧ token = Some getL1TokenData
         ∧ getL1TokenData (address t) = Rejected None).
Proof.
  run_selectToken.
  split_cases; do 2 eexists; (split; [reflexivity |]);
    (split; [by (left + right) |]);
    (split; [try done |
             try (intros (? & ? & ? & ? & ? & ? & ? & ? & ?);
                  simplify_eq; congruence)]).
  - intros _. do 3 eexists. split_and!; try done. by apply truthy_true.
  - intros (? & ? & ? & ? & Ha%truthy_true & _). simplify_eq. congruence.
Qed.

(** X10.  A token with a non-empty address that the bridge token set has,
    whose metadata arrives: the calls are [close], [getL1TokenData],
    [updateTokenData] and [setSelectedToken], in this order, and the
    selection becomes the converted metadata with the L2 address of the
    clicked record.  When the request resolves with nothing, nothing is
    updated or selected. *)
Theorem fetch_success_selects
    (bt : gmap string ERC20BridgeToken)
    (getL1TokenData : string → Settled (option L1TokenData))
    (t : SearchableToken) (current : option ERC20BridgeToken) :
  address t ≠ "" →
  is_Some (bt !! address t) →
  (∀ data,
     getL1TokenData (address t) = Fulfilled (Some data) →
     Eff.run (selectToken' (Some bt) (Some getL1TokenData) (Some t))
       = (Normal tt,
          [Close; GetL1TokenData (address t); UpdateTokenData (address t);
           SetSelectedToken
             (Some (withL2Address (toERC20BridgeToken data) (l2Address t)))])
     ∧ selectionAfter current
         [Close; GetL1TokenData (address t); UpdateTokenData (address t);
          SetSelectedToken
            (Some (withL2Address (toERC20BridgeToken data) (l2Address t)))]
       = Some (withL2Address (toERC20BridgeToken data) (l2Address t)))
  ∧ (getL1TokenData (address t) = Fulfilled None →
     Eff.run (selectToken' (Some bt) (Some getL1TokenData) (Some t))
       = (Normal tt, [Close; GetL1TokenData (address t)])).
Proof.
  intros Ha%truthy_true Hbt.
  assert (hasProperty bt (address t) = true) as Hp
    by (apply hasProperty_true; by left).
  split.
  - intros data Hget. split; [| done].
    run_selectToken. simpl. rewrite Ha, Hp. simpl. by rewrite Hget.
  - intros Hget. run_selectToken. simpl. rewrite Ha, Hp. simpl.
    by rewrite Hget.
Qed.

(** X11.  While the bridge token set is undefined, selecting a token only
    closes the modal and logs the [TypeError]: nothing is imported, fetched
    or selected. *)
Theorem undefined_bridgeTokens_is_logged token (t : SearchableToken) :
  address t ≠ "" →
  Eff.run (selectToken' None token (Some t))
  = (Normal tt, [Close; ConsoleWarn (Some TypeError)]).
Proof. intros Ha%truthy_true. run_selectToken. simpl. by rewrite Ha. Qed.

(** X12.  Without the token interface of the SDK a known token is neither
    fetched nor selected: the click only closes the modal. *)
Theorem missing_sdk_only_closes
    (bt : gmap string ERC20BridgeToken) (t : SearchableToken) :
  address t ≠ "" →
  is_Some (bt !! address t) →
  Eff.run (selectToken' (Some bt) None (Some t)) = (Normal tt, [Close]).
Proof.
  intros Ha%truthy_true Hbt.
  assert (hasProperty bt (address t) = true) as Hp
    by (apply hasProperty_true; by left).
  run_selectToken. simpl. by rewrite Ha, Hp.
Qed.

(** X13.  The selection is set in two cases only: ETH was clicked, which
    clears it, or the metadata arrived of a token with a non-empty address
    that the read of the bridge token set finds, as an own entry or as a
    name inherited from [Object.prototype]. *)
Theorem selection_is_set_only_by_eth_or_fetch
    bridgeTokens token _token (x : option ERC20BridgeToken) :
  SetSelectedToken x ∈ (Eff.run (selectToken' bridgeTokens token _token)).2 →
  (_token = None ∧ x = None)
  ∨ ∃ t bt getL1TokenData data,
      _token = Some t ∧ address t ≠ ""
      ∧ bridgeTokens = Some bt
      ∧ (is_Some (bt !! address t) ∨ address t ∈ objectPrototype)
      ∧ token = Some getL1TokenData
      ∧ getL1TokenData (address t) = Fulfilled (Some data)
      ∧ x = Some (withL2Address (toERC20BridgeToken data) (l2Address t)).
Proof.
  run_selectToken. split_cases; intros H; in_trace H.
  - right. injection H as ->. do 4 eexists.
    split_and!; try done; try (by apply truthy_true).
    by apply hasProperty_true.
  - left. by injection H as ->.
Qed.

(** X14.  [onImportToken] is called only with the non-empty address of a
    clicked token that the bridge token set neither has nor inherits, and
    metadata is requested only for an address that the set has or
    inherits; never both for one click. *)
Theorem import_and_fetch_exclude_each_other
    bridgeTokens token _token (a : string) :
  let tr := (Eff.run (selectToken' bridgeTokens token _token)).2 in
  (ImportToken a ∈ tr →
   ∃ t bt, _token = Some t ∧ a = address t ∧ a ≠ ""
           ∧ bridgeTokens = Some bt
           ∧ bt !! a = None ∧ a ∉ objectPrototype)
  ∧ (GetL1TokenData a ∈ tr →
     ∃ t bt, _token = Some t ∧ a = address t ∧ a ≠ ""
             ∧ bridgeTokens = Some bt
             ∧ (is_Some (bt !! a) ∨ a ∈ objectPrototype)).
Proof.
  run_selectToken.
  split; split_cases; intros H; in_trace H; injection H as ->;
    try match goal with
        | Hp : hasProperty _ _ = false |- _ =>
            apply hasProperty_false in Hp as [? ?]
        end;
    try match goal with
        | Hp : hasProperty _ _ = true |- _ => apply hasProperty_true in Hp
        end;
    do 2 eexists; split_and!; try done; by apply truthy_true.
Qed.

End SelectTokenMore.

Lemma fetch_success_selects_witness :
  Eff.run (selectToken Z (λ _, daiBridged)
             (Some (<["0x6b17" := daiBridged]> ∅))
             (Some (λ _, Fulfilled (Some 0))) (Some daiFromUser))
  = (Normal tt,
     [Close; GetL1TokenData "0x6b17"; UpdateTokenData "0x6b17";
      SetSelectedToken (Some (withL2Address daiBridged None))]).
Proof.
  refine (proj1 (proj1 (fetch_success_selects Z (λ _, daiBridged)
           (<["0x6b17" := daiBridged]> ∅) (λ _, Fulfilled (Some 0))
           daiFromUser None _ _) 0 eq_refl)).
  - vm_compute; discriminate.
  - exists daiBridged. reflexivity.
Defined.

Lemma undefined_bridgeTokens_is_logged_witness :
  Eff.run (selectToken Z (λ _, daiBridged) None
             (Some (λ _, Fulfilled (Some 0))) (Some dai))
  = (Normal tt, [Close; ConsoleWarn (Some TypeError)]).
Proof.
  apply (undefined_bridgeTokens_is_logged Z (λ _, daiBridged)
           (Some (λ _, Fulfilled (Some 0))) dai).
  vm_compute; discriminate.
Defined.

Lemma missing_sdk_only_closes_witness :
  Eff.run (selectToken Z (λ _, daiBridged)
             (Some (<["0x6b17" := daiBridged]> ∅)) None (Some dai))
  = (Normal tt, [Close]).
Proof.
  apply (missing_sdk_only_closes Z (λ _, daiBridged)
           (<["0x6b17" := daiBridged]> ∅) dai).
  - vm_compute; discriminate.
  - exists daiBridged. reflexivity.
Defined.

Lemma selection_is_set_only_by_eth_or_fetch_witness :
  SetSelectedToken None
    ∈ (Eff.run (selectToken Z (λ _, daiBridged) (Some ∅) None None)).2
  ∧ (None : option SearchableToken) = None.
Proof.
  assert (H : SetSelectedToken None
                ∈ (Eff.run (selectToken Z (λ _, daiBridged) (Some ∅) None None)).2)
    by apply list_elem_of_further, list_elem_of_here.
  split; [exact H |].
  destruct (selection_is_set_only_by_eth_or_fetch Z (λ _, daiBridged)
              (Some ∅) None None None H) as [[Heq _]|(t & _ & _ & _ & Heq & _)].
  - exact Heq.
  - discriminate Heq.
Defined.

(** ** The rows *)

Lemma length_toLowerCase (s : string) :
  String.length (Js.toLowerCase s) = String.length s.
Proof. induction s as [|c s IH]; simpl; [done | by rewrite IH]. Qed.

Section TokenRowFacts.

Variable bridgeTokens : option (gmap string ERC20BridgeToken).
Variable balances : option BridgeBalances.
Variable isDepositMode : bool.


(** X16.  A row is disabled exactly in withdrawal mode for a token without an L2
    address; the ETH row and every row in deposit mode can be clicked. *)
Theorem row_disabled_iff (token : option SearchableToken) :
  rowDisabled isDepositMode token = true
  ↔ isDepositMode = false ∧ ∃ t, token = Some t ∧ l2Address t = None.
Proof.
  unfold rowDisabled, tokenIsBridgeable, tokenHasL2Address.
  destruct isDepositMode, token as [t|]; simpl.
  - split; [done | by intros [? _]].
  - split; [done | by intros [? _]].
  - rewrite negb_true_iff, bool_decide_eq_false. split.
    + intros H. split; [done |]. exists t. split; [done |].
      destruct (l2Address t); [| done]. exfalso. apply H. by eexists.
    + intros (_ & t' & [= <-] & ->) [? ?]. done.
  - split; [done | by intros (_ & t & ? & _)].
Qed.

(** X17.  A row carries the label "Import" exactly when it can be clicked
    and the bridge token set is defined and neither has the address of the
    token nor inherits a property of that name. *)
Theorem row_import_iff (token : option SearchableToken) :
  rowStatus bridgeTokens balances isDepositMode token = StatusImport
  ↔ rowDisabled isDepositMode token = false
    ∧ ∃ bt t, bridgeTokens = Some bt ∧ token = Some t
              ∧ bt !! address t = None ∧ address t ∉ objectPrototype.
Proof.
  unfold rowStatus, rowDisabled, tokenIsAddedToTheBridge.
  destruct (tokenIsBridgeable isDepositMode token); simpl;
    [| split; [done | by intros [? _]]].
  destruct bridgeTokens as [bt|], token as [t|]; simpl.
  - destruct (hasProperty bt (address t)) eqn:E.
    + split; [by case_match |].
      intros (_ & bt' & t' & [= <-] & [= <-] & Hbt & Hp).
      assert (hasProperty bt (address t) = false) by by apply hasProperty_false.
      congruence.
    + apply hasProperty_false in E as [? ?].
      split; [| done]. intros _. split; [done |]. by exists bt, t.
  - split; [by case_match | by intros (_ & ? & ? & _ & ? & _)].
  - split; [by case_match | by intros (_ & ? & ? & ? & _)].
  - split; [by case_match | by intros (_ & ? & ? & ? & _)].
Qed.

(** X18.  The address under the symbol of a row never has more than twelve
    characters. *)
Theorem row_address_is_short (token : option SearchableToken) (text : string) :
  rowAddressText isDepositMode token = Some (Some text) →
  (String.length text ≤ 12)%nat.
Proof.
  assert (∀ a, String.length (Js.toLowerCase (shortenAddress a)) ≤ 12)%nat as H.
  { intros a. rewrite length_toLowerCase.
    rewrite length_shortenAddress. lia. }
  unfold rowAddressText. destruct token as [t|]; [| done].
  destruct isDepositMode.
  - intros [= <-]. apply H.
  - destruct (l2Address t) as [l2|]; [| done].
    destruct (Js.truthy l2); intros [= <-]; [apply H | simpl; lia].
Qed.

End TokenRowFacts.

Lemma row_address_is_short_witness :
  rowAddressText false (Some dai) = Some (Some "0xda1...da10")
  ∧ (String.length "0xda1...da10" ≤ 12)%nat.
Proof.
  assert (H : rowAddressText false (Some dai) = Some (Some "0xda1...da10"))
    by reflexivity.
  split; [exact H |].
  exact (row_address_is_short false (Some dai) "0xda1...da10" H).
Defined.

(** ** Clicking a row *)

Section ClickRowFacts.

Variable L1TokenData : Type.
Variable toERC20BridgeToken : L1TokenData → ERC20BridgeToken.
Variable bridgeTokens : option (gmap string ERC20BridgeToken).
Variable token : option (string → Settled (option L1TokenData)).
Variable balances : option BridgeBalances.
Variable isDepositMode : bool.
Variable tokensFromUser tokensFromLists : TokenObject.

Local Abbreviation clickRow' :=
  (clickRow L1TokenData toERC20BridgeToken bridgeTokens token isDepositMode
     tokensFromUser tokensFromLists).

(** X19.  A click on a row that is labelled "Import" asks for the import of that
    token and does nothing else. *)
Theorem import_row_click_imports
    (shown : list string) (index : nat) (t : SearchableToken) :
  rowToken tokensFromUser tokensFromLists shown index = Some (Some t) →
  rowStatus bridgeTokens balances isDepositMode (Some t) = StatusImport →
  address t ≠ "" →
  clickRow' shown index = Some (Normal tt, [Close; ImportToken (address t)]).
Proof.
  intros Hrow Hstatus Ha%truthy_true. unfold clickRow. rewrite Hrow. simpl.
  revert Hstatus. unfold rowStatus, rowDisabled, tokenIsAddedToTheBridge.
  destruct (tokenIsBridgeable isDepositMode (Some t)); [| done]. simpl.
  destruct bridgeTokens as [bt|]; [| by case_match].
  destruct (hasProperty bt (address t)) eqn:E; [by case_match |].
  intros _. run_selectToken. simpl. by rewrite Ha, E.
Qed.

(** X20.  A click on a row without that label never asks for an import. *)
Theorem other_row_click_never_imports
    (shown : list string) (index : nat) (row : option SearchableToken)
    (a : string) :
  rowToken tokensFromUser tokensFromLists shown index = Some row →
  rowStatus bridgeTokens balances isDepositMode row ≠ StatusImport →
  ∃ c tr, clickRow' shown index = Some (c, tr) ∧ ImportToken a ∉ tr.
Proof.
  intros Hrow Hstatus. unfold clickRow. rewrite Hrow. simpl.
  revert Hstatus. unfold rowStatus, rowDisabled, tokenIsAddedToTheBridge.
  destruct (tokenIsBridgeable isDepositMode row); simpl.
  - intros Hstatus. run_selectToken.
    destruct row as [t|], bridgeTokens as [bt|]; simpl;
      try (destruct (Js.truthy (address t)); simpl);
      try (do 2 eexists; split; [done |]; intros H; in_trace H; fail).
    destruct (hasProperty bt (address t)) eqn:E; [| done].
    split_cases; do 2 eexists; (split; [done |]); intros H; in_trace H.
  - intros _. do 2 eexists. split; [done |]. by intros ?%elem_of_nil.
Qed.

(** X21.  Whenever ETH passes the filter, it is the first row, and a click on it
    clears the selection. *)
Theorem eth_row_click_clears (newToken : string) :
  tokenSearchOf newToken = ""
  ∨ substring_of (tokenSearchOf newToken) "ethereumeth" →
  ∃ out,
    tokensToShow balances isDepositMode tokensFromUser tokensFromLists newToken
      = Some out
    ∧ out !! 0%nat = Some ETH_IDENTIFIER
    ∧ clickRow' out 0 = Some (Normal tt, [Close; SetSelectedToken None]).
Proof.
  intros Hq.
  destruct (tokensToShow_returns balances isDepositMode tokensFromUser
              tokensFromLists newToken) as (shown & _ & Hout & _ & Hhd).
  destruct Hhd as [r ->].
  { unfold filterFn. rewrite String.eqb_refl.
    destruct (Js.truthy (tokenSearchOf newToken)) eqn:E; cbn [negb]; [| done].
    destruct Hq as [Hq|Hq]; [by rewrite Hq in E |].
    f_equal. by apply includes_spec. }
  destruct (sortBy_ETH_first balances isDepositMode r) as [r' Hr].
  rewrite Hr in Hout. eexists. split; [exact Hout |]. split; [done |].
  unfold clickRow, rowToken, rowDisabled, tokenIsBridgeable. simpl.
  by destruct isDepositMode.
Qed.

End ClickRowFacts.

Lemma import_row_click_imports_witness :
  clickRow Z (λ _, daiBridged) (Some ∅) None true
    [("0x6b17", daiFromUser)] [("0x2260", wbtc); ("0x6b17", dai)]
    [ETH_IDENTIFIER; "0x6b17"; "0x2260"] 2
  = Some (Normal tt, [Close; ImportToken "0x2260"]).
Proof.
  apply (import_row_click_imports Z (λ _, daiBridged) (Some ∅) None
           (Some sampleBalances) true
           [("0x6b17", daiFromUser)] [("0x2260", wbtc); ("0x6b17", dai)]
           [ETH_IDENTIFIER; "0x6b17"; "0x2260"] 2 wbtc).
  - reflexivity.
  - reflexivity.
  - vm_compute; discriminate.
Defined.

Lemma other_row_click_never_imports_witness :
  ∃ c tr,
    clickRow Z (λ _, daiBridged) (Some (<["0x6b17" := daiBridged]> ∅))
      (Some (λ _, Fulfilled (Some 0))) true
      [("0x6b17", daiFromUser)] [("0x2260", wbtc); ("0x6b17", dai)]
      [ETH_IDENTIFIER; "0x6b17"; "0x2260"] 1
    = Some (c, tr)
    ∧ ImportToken "0x6b17" ∉ tr.
Proof.
  apply (other_row_click_never_imports Z (λ _, daiBridged)
           (Some (<["0x6b17" := daiBridged]> ∅))
           (Some (λ _, Fulfilled (Some 0)))
           (Some sampleBalances) true
           [("0x6b17", daiFromUser)] [("0x2260", wbtc); ("0x6b17", dai)]
           [ETH_IDENTIFIER; "0x6b17"; "0x2260"] 1 (Some dai) "0x6b17").
  - reflexivity.
  - vm_compute; discriminate.
Defined.

Lemma eth_row_click_clears_witness :
  ∃ out,
    tokensToShow (Some sampleBalances) true
      [("0x6b17", daiFromUser)] [("0x2260", wbtc); ("0x6b17", dai)] "Ether"
    = Some out
    ∧ out !! 0%nat = Some ETH_IDENTIFIER
    ∧ clickRow Z (λ _, daiBridged) (Some ∅) None true
        [("0x6b17", daiFromUser)] [("0x2260", wbtc); ("0x6b17", dai)] out 0
      = Some (Normal tt, [Close; SetSelectedToken None]).
Proof.
  apply (eth_row_click_clears Z (λ _, daiBridged) (Some ∅) None
           (Some sampleBalances) true
           [("0x6b17", daiFromUser)] [("0x2260", wbtc); ("0x6b17", dai)]
           "Ether").
  right. apply includes_spec. reflexivity.
Defined.

(** ** More on the add-token form *)

Section AddTokenMore.

Variable isAddress : string → bool.

Lemma valid_adds_step (s s' : Form) (i : Input) :
  (∀ a, TokenAdd a ∈ calls s → isAddress a = true) →
  step isAddress s i = Some s' →
  ∀ a, TokenAdd a ∈ calls s' → isAddress a = true.
Proof.
  intros Hs. destruct i as [value| |i r|]; simpl.
  - intros [= <-]. exact Hs.
  - intros [= <-]. unfold addNewToken.
    destruct (isAddress (newToken s)) eqn:E; simpl; [| exact Hs].
    destruct (isAddingToken s); [exact Hs |]. simpl.
    intros a [Ha|Ha]%elem_of_app; [by apply Hs |].
    apply elem_of_cons in Ha as [[= ->]|?%elem_of_nil]; done.
  - destruct (inFlight s !! i) as [[m b]|]; [| done]. intros [= <-]. simpl.
    intros a [Ha|Ha]%elem_of_app; [by apply Hs |].
    destruct r as [[]|[ex|]]; simpl in Ha;
      [by apply elem_of_nil in Ha | | in_trace Ha].
    destruct (String.eqb (err_name ex) "TokenDisabledError"); in_trace Ha.
  - intros [= <-]. exact Hs.
Qed.

(** X22.  [token.add] is only ever called with a text that [isAddress]
    accepts, whatever is typed, however often the form is submitted and
    however often the panel is mounted anew. *)
Theorem only_addresses_are_added (inputs : list Input) (s : Form) (a : string) :
  steps isAddress initialForm inputs = Some s →
  TokenAdd a ∈ calls s →
  isAddress a = true.
Proof.
  intros Hrun.
  assert (∀ s0 : Form,
            (∀ a, TokenAdd a ∈ calls s0 → isAddress a = true) →
            steps isAddress s0 inputs = Some s →
            ∀ a, TokenAdd a ∈ calls s → isAddress a = true) as Hgen.
  { clear Hrun. induction inputs as [|i inputs IH]; intros s0 Hs0; simpl.
    - by intros [= <-].
    - destruct (step isAddress s0 i) as [s1|] eqn:E; [| done]. simpl.
      apply IH. by eapply valid_adds_step. }
  apply (Hgen initialForm); [| exact Hrun].
  intros a' Ha. by apply elem_of_nil in Ha.
Qed.

(** X23.  While the add button is disabled, submitting the form (by the
    Enter key, say) does nothing, given that the empty text is no
    address. *)
Theorem disabled_button_blocks_submit (s : Form) :
  isAddress "" = false →
  addDisabled isAddress s = true →
  step isAddress s Submit = Some s.
Proof.
  intros Hempty. unfold addDisabled. simpl. unfold addNewToken.
  destruct (String.eqb_spec (newToken s) "") as [->|_]; simpl.
  - by rewrite Hempty.
  - by intros ->.
Qed.

(** X24.  When the request of the mounted panel has settled, in whatever
    way, the form is ready again: the next submission of an address starts
    a new request. *)
Theorem form_accepts_again_after_settle
    (inputs : list Input) (s s1 : Form) (i : nat) (a : string)
    (r : Settled unit) :
  steps isAddress initialForm inputs = Some s →
  inFlight s !! i = Some (mount s, a) →
  step isAddress s (Settle i r) = Some s1 →
  isAddress (newToken s1) = true →
  ∃ s2, step isAddress s1 Submit = Some s2
        ∧ isAddingToken s2 = true
        ∧ ownRequests s2 = [(mount s1, newToken s1)]
        ∧ calls s2 = calls s1 ++ [TokenAdd (newToken s1)].
Proof.
  intros Hrun Hi Hsettle Haddr.
  assert (Hinv : flagTracksRequest s).
  { eapply flagTracksRequest_steps; [| exact Hrun].
    apply flagTracksRequest_initial. }
  pose proof (flagTracksRequest_step isAddress s s1 (Settle i r) Hinv Hsettle)
    as [Hflag _].
  assert (isAddingToken s1 = false) as Hf.
  { simpl in Hsettle. rewrite Hi in Hsettle. injection Hsettle as <-.
    simpl. by rewrite Nat.eqb_refl. }
  destruct Hflag as [[Ht _]|[_ Hnil]]; [congruence |].
  eexists. split; [reflexivity |]. unfold addNewToken.
  rewrite Haddr, Hf. simpl. split_and!; try done.
  unfold ownRequests in *. simpl.
  rewrite List.filter_app, Hnil. simpl. by rewrite Nat.eqb_refl.
Qed.

End AddTokenMore.

Lemma only_addresses_are_added_witness :
  (String.prefix "0x" "0x6b17" = true).
Proof.
  apply (only_addresses_are_added (String.prefix "0x")
           [Change "dai"; Submit; Change "0x6b17"; Submit; Remount; Submit]
           {| mount := 1; newToken := ""; isAddingToken := false;
              inFlight := [(0%nat, "0x6b17")];
              calls := [TokenAdd "0x6b17"] |}
           "0x6b17").
  - reflexivity.
  - apply list_elem_of_here.
Defined.

Lemma disabled_button_blocks_submit_witness :
  step (String.prefix "0x") initialForm Submit = Some initialForm.
Proof.
  apply (disabled_button_blocks_submit (String.prefix "0x") initialForm);
    reflexivity.
Defined.

Lemma form_accepts_again_after_settle_witness :
  ∃ s2,
    step (String.prefix "0x")
      {| mount := 0; newToken := "0x6b17"; isAddingToken := false;
         inFlight := []; calls := [TokenAdd "0x6b17"; ConsoleLog; ConsoleLog] |}
      Submit = Some s2
    ∧ isAddingToken s2 = true
    ∧ ownRequests s2 = [(0%nat, "0x6b17")]
    ∧ calls s2
      = [TokenAdd "0x6b17"; ConsoleLog; ConsoleLog] ++ [TokenAdd "0x6b17"].
Proof.
  apply (form_accepts_again_after_settle (String.prefix "0x")
           [Change "0x6b17"; Submit]
           {| mount := 0; newToken := "0x6b17"; isAddingToken := true;
              inFlight := [(0%nat, "0x6b17")]; calls := [TokenAdd "0x6b17"] |}
           {| mount := 0; newToken := "0x6b17"; isAddingToken := false;
              inFlight := [];
              calls := [TokenAdd "0x6b17"; ConsoleLog; ConsoleLog] |}
           0 "0x6b17" (Rejected None)); reflexivity.
Defined.

(** ** Token lists *)

Lemma isActive_spec (bt : gmap string ERC20BridgeToken) (tl : BridgeTokenList) :
  isActive bt tl = true
  ↔ ∃ addr t, bt !! addr = Some t ∧ bt_listID t = Some (tl_id tl).
Proof.
  unfold isActive. rewrite existsb_exists. split.
  - intros (addr & _ & H). destruct (bt !! addr) as [t|] eqn:E; [| done].
    apply bool_decide_eq_true in H. by exists addr, t.
  - intros (addr & t & Hbt & Hid). exists addr. split.
    + apply list_elem_of_In, list_elem_of_fmap. exists (addr, t).
      split; [done |]. by apply elem_of_map_to_list.
    + rewrite Hbt. by apply bool_decide_eq_true.
Qed.

(** X25.  The switch of a list removes the tokens of the list when some bridge
    token carries the id of the list, and adds the list otherwise. *)
Theorem toggle_removes_iff_in_use
    (bt : gmap string ERC20BridgeToken) (tl : BridgeTokenList) :
  ((∃ addr t, bt !! addr = Some t ∧ bt_listID t = Some (tl_id tl)) →
   onToggle bt tl = RemoveTokensFromList (tl_id tl))
  ∧ ((∀ addr t, bt !! addr = Some t → bt_listID t ≠ Some (tl_id tl)) →
     onToggle bt tl = AddBridgeTokenListToBridge tl).
Proof.
  unfold onToggle, toggleTokenList. split.
  - intros H. apply isActive_spec in H. by rewrite H.
  - intros H. destruct (isActive bt tl) eqn:E; [| done].
    apply isActive_spec in E as (addr & t & Hbt & Hid). by destruct (H addr t).
Qed.

(** ** The withdrawal card *)

(** X26.  The card shows the L1 balance of the withdrawn asset, the very balance
    the token list reads in deposit mode. *)
Theorem executedBalance_is_deposit_balance
    (balances : BridgeBalances) (tx : MergedTransaction) :
  (tx_asset tx = "eth" →
   executedBalance balances tx = getBalance (Some balances) true ETH_IDENTIFIER)
  ∧ (∀ a, tx_asset tx ≠ "eth" → tx_tokenAddress tx = Some a →
          a ≠ "" → a ≠ ETH_IDENTIFIER →
          executedBalance balances tx = getBalance (Some balances) true a)
  ∧ (tx_asset tx ≠ "eth" →
     tx_tokenAddress tx = None ∨ tx_tokenAddress tx = Some "" →
     executedBalance balances tx = None).
Proof.
  unfold executedBalance, getBalance. split_and!.
  - intros ->. done.
  - intros a Hasset Ha Hne Heth.
    destruct (String.eqb_spec (tx_asset tx) "eth"); [done |].
    rewrite Ha. apply truthy_true in Hne. rewrite Hne. simpl.
    by destruct (String.eqb_spec a ETH_IDENTIFIER).
  - intros Hasset Ha.
    destruct (String.eqb_spec (tx_asset tx) "eth"); [done |].
    by destruct Ha as [->| ->].
Qed.

(** ** The injected wallet *)

(** X27.  [requestNetworkSwitch] never rejects and always yields the empty array.
    It warns that no wallet was detected in every run in which the request
    was not rejected, so also after a wallet has accepted the request. *)
Theorem requestNetworkSwitch_always_empty
    (ethereum : option Wallet.InjectedEthereumProvider) :
  (Wallet.requestNetworkSwitch ethereum).1 = Normal []
  ∧ (Wallet.Warn "No web3 injection detected"
       ∈ (Wallet.requestNetworkSwitch ethereum).2
     ↔ ¬ ∃ e f reason, ethereum = Some e ∧ Wallet.request e = Some f
                      ∧ f "wallet_addEthereumChain" = Rejected reason).
Proof.
  unfold Wallet.requestNetworkSwitch, Wallet.awaitRequest.
  destruct ethereum as [e|]; simpl.
  - destruct (Wallet.request e) as [f|] eqn:Er; simpl.
    + destruct (f "wallet_addEthereumChain") as [r|reason] eqn:Ef; simpl.
      * split; [done |]. split.
        -- intros _ (e' & f' & reason & [= <-] & Hr & Hf). congruence.
        -- intros _. apply list_elem_of_further, list_elem_of_here.
      * split; [done |]. split.
        -- intros H. in_trace H.
        -- intros H. destruct H. by exists e, f, reason.
    + split; [done |]. split.
      * intros _ (e' & f' & reason & [= <-] & Hr & _). congruence.
      * intros _. apply list_elem_of_here.
  - split; [done |]. split.
    + by intros _ (e & f & reason & [=] & _).
    + intros _. apply list_elem_of_here.
Qed.

Example requestNetworkSwitch_after_success :
  Wallet.requestNetworkSwitch
    (Some {| Wallet.request := Some (λ _, Fulfilled (Some []));
             Wallet.networkVersion := "1" |})
  = (Normal [],
     [Wallet.Request "wallet_addEthereumChain";
      Wallet.Warn "No web3 injection detected"]).
Proof. reflexivity. Qed.
